(** * SpecterRealMonitor: the monitored target program [target-program.c]

    The program allocates a buffer of [SIZE] ints, writes [i * 2] at every
    index, sums the buffer into a [long long], prints the sum and frees the
    buffer.  This file embeds [main] in a small state-and-fault monad over
    an explicit heap, and proves the properties of the specification.

    Conventions of the embedding:
    - C integers are [Z]; signed arithmetic that leaves the range of its
      type is undefined behaviour and is modelled as the fault
      [SignedOverflow]; [size_t] arithmetic wraps.
    - the heap is a finite map from block identifiers to arrays of int
      cells; a memory access outside a live block is a fault.
    - the allocator and the indeterminate content of fresh memory are the
      environment [env], the only input of the program. *)

From Stdlib Require Import ZArith Lia Ascii DecimalString.
From Stdlib Require DecimalPos DecimalZ.
From stdpp Require Import base option list gmap strings.

Local Open Scope Z_scope.

(** ** Integer types

    The widths are those of the LP64 data model: 32-bit [int], 64-bit
    [long long], 64-bit [size_t]. *)

Definition INT_MIN : Z := -2147483648.
Definition INT_MAX : Z := 2147483647.
Definition LLONG_MIN : Z := -9223372036854775808.
Definition LLONG_MAX : Z := 9223372036854775807.
Definition SIZE_MAX : Z := 18446744073709551615.

(** [sizeof(int)] *)
Definition sizeof_int : Z := 4.

Definition in_int (z : Z) : bool := (INT_MIN <=? z) && (z <=? INT_MAX).
Definition in_llong (z : Z) : bool := (LLONG_MIN <=? z) && (z <=? LLONG_MAX).

(** Conversion of an [int] to [size_t], and [size_t] multiplication: both
    are taken modulo [SIZE_MAX + 1]. *)
Definition size_of_int (z : Z) : Z := z mod (SIZE_MAX + 1).
Definition size_mul (a b : Z) : Z := (a * b) mod (SIZE_MAX + 1).

(** ** Memory, events and machine state *)

Inductive ptr : Type :=
  | NULL
  | Ptr (b : positive).

Definition is_null (p : ptr) : bool :=
  match p with NULL => true | Ptr _ => false end.

Inductive event : Type :=
  | EvMalloc (bytes : Z) (result : ptr)
  | EvStore (p : ptr) (i v : Z)
  | EvLoad (p : ptr) (i v : Z)
  | EvPrint (line : string)
  | EvFree (p : ptr).

(** The machine state.  [history] is ghost state: every primitive appends
    the event it performs together with the heap it leaves behind. *)
Record state : Type := mkState {
  heap : gmap positive (list Z);
  next_block : positive;
  stdout : string;
  history : list (event * gmap positive (list Z))
}.

Definition init_state : state := mkState ∅ 1%positive EmptyString [].

Definition trace (s : state) : list event := (history s).*1.

(** The environment of one run: whether the allocator can satisfy a
    request of a given number of bytes, and the indeterminate value found
    in each cell of a freshly allocated block. *)
Record env : Type := mkEnv {
  malloc_succeeds : Z -> bool;
  garbage : nat -> Z
}.

(** ** The monad: state passing with faults *)

Inductive fault : Type :=
  | NullDeref
  | InvalidBlock
  | OutOfBounds
  | SignedOverflow
  | InvalidFree
  | LoopFuel.

Inductive outcome (A : Type) : Type :=
  | Done (a : A) (s : state)
  | Crash (f : fault) (s : state).
Arguments Done {A} a s.
Arguments Crash {A} f s.

Definition M (A : Type) : Type := state -> outcome A.

Definition ret {A} (a : A) : M A := fun s => Done a s.

Definition bind {A B} (m : M A) (k : A -> M B) : M B :=
  fun s => match m s with
           | Done a s' => k a s'
           | Crash f s' => Crash f s'
           end.

Definition crash {A} (f : fault) : M A := fun s => Crash f s.

#[global] Instance M_ret : MRet M := @ret.
#[global] Instance M_bind : MBind M := fun A B k m => bind m k.

(** ** Primitive operations *)

(** Checked signed arithmetic. *)
Definition int_add (a b : Z) : M Z :=
  if in_int (a + b) then ret (a + b) else crash SignedOverflow.

Definition int_mul (a b : Z) : M Z :=
  if in_int (a * b) then ret (a * b) else crash SignedOverflow.

Definition llong_add (a b : Z) : M Z :=
  if in_llong (a + b) then ret (a + b) else crash SignedOverflow.

(** The cells of a fresh block of [bytes] bytes, seen as an int array. *)
Definition fresh_cells (e : env) (bytes : Z) : list Z :=
  garbage e <$> seq 0 (Z.to_nat (bytes / sizeof_int)).

(** [malloc(bytes)] *)
Definition malloc (e : env) (bytes : Z) : M ptr := fun s =>
  if malloc_succeeds e bytes then
    let b := next_block s in
    let h := <[b := fresh_cells e bytes]> (heap s) in
    Done (Ptr b)
      (mkState h (Pos.succ b) (stdout s)
         (history s ++ [(EvMalloc bytes (Ptr b), h)]))
  else
    Done NULL
      (mkState (heap s) (next_block s) (stdout s)
         (history s ++ [(EvMalloc bytes NULL, heap s)])).

Definition in_bounds (i : Z) (cells : list Z) : bool :=
  (0 <=? i) && (i <? Z.of_nat (length cells)).

(** [p[i] = v] *)
Definition store (p : ptr) (i v : Z) : M unit := fun s =>
  match p with
  | NULL => Crash NullDeref s
  | Ptr b =>
      match heap s !! b with
      | None => Crash InvalidBlock s
      | Some cells =>
          if in_bounds i cells then
            let h := <[b := <[Z.to_nat i := v]> cells]> (heap s) in
            Done tt
              (mkState h (next_block s) (stdout s)
                 (history s ++ [(EvStore p i v, h)]))
          else Crash OutOfBounds s
      end
  end.

(** [p[i]] *)
Definition load (p : ptr) (i : Z) : M Z := fun s =>
  match p with
  | NULL => Crash NullDeref s
  | Ptr b =>
      match heap s !! b with
      | None => Crash InvalidBlock s
      | Some cells =>
          if in_bounds i cells then
            match cells !! Z.to_nat i with
            | Some v =>
                Done v
                  (mkState (heap s) (next_block s) (stdout s)
                     (history s ++ [(EvLoad p i v, heap s)]))
            | None => Crash OutOfBounds s
            end
          else Crash OutOfBounds s
      end
  end.

(** [free(p)] *)
Definition free (p : ptr) : M unit := fun s =>
  match p with
  | NULL =>
      Done tt
        (mkState (heap s) (next_block s) (stdout s)
           (history s ++ [(EvFree p, heap s)]))
  | Ptr b =>
      match heap s !! b with
      | None => Crash InvalidFree s
      | Some _ =>
          let h := delete b (heap s) in
          Done tt
            (mkState h (next_block s) (stdout s)
               (history s ++ [(EvFree p, h)]))
      end
  end.

(** The [%lld] conversion: decimal digits, a minus sign for negatives. *)
Definition lld (z : Z) : string := NilZero.string_of_int (Z.to_int z).

Definition newline : string := String (Ascii.ascii_of_nat 10) EmptyString.

(** [printf(pre "%lld" post, z)] *)
Definition printf_lld (pre : string) (z : Z) (post : string) : M unit :=
  fun s =>
    let line := (pre ++ lld z ++ post)%string in
    Done tt
      (mkState (heap s) (next_block s) (stdout s ++ line)%string
         (history s ++ [(EvPrint line, heap s)])).

(** [for (int i = lo; i < hi; i++) acc = body(i, acc);]  The loop variable
    is an [int], so [i++] is checked.  The recursion is on a bound on the
    number of iterations that [for_int] computes; running out of it is the
    fault [LoopFuel], which is shown never to happen. *)
Fixpoint for_loop {A} (fuel : nat) (i hi : Z) (body : Z -> A -> M A)
    (acc : A) : M A :=
  match fuel with
  | O => crash LoopFuel
  | S fuel' =>
      if i <? hi then
        acc' ← body i acc;
        i' ← int_add i 1;
        for_loop fuel' i' hi body acc'
      else ret acc
  end.

Definition for_int {A} (lo hi : Z) (body : Z -> A -> M A) (acc : A) : M A :=
  for_loop (S (Z.to_nat (hi - lo))) lo hi body acc.

(** ** The program *)

(** [#define SIZE 1000000] *)
Definition SIZE : Z := 1000000.

Section Program.
(** The program is written over the buffer size [N]; [main] is its
    instance at [SIZE]. *)
Variable e : env.
Variable N : Z.

(** [int *arr = malloc(SIZE * sizeof(int));] *)
Definition allocate : M ptr :=
  malloc e (size_mul (size_of_int N) sizeof_int).

(** [for (int i = 0; i < SIZE; i++) { arr[i] = i * 2; }] *)
Definition populate (arr : ptr) : M unit :=
  for_int 0 N (fun i _ => v ← int_mul i 2; store arr i v) tt.

(** [long long sum = 0;
     for (int i = 0; i < SIZE; i++) { sum += arr[i]; }] *)
Definition reduce (arr : ptr) : M Z :=
  for_int 0 N (fun i sum => x ← load arr i; llong_add sum x) 0.

(** [printf("Sum: %lld\n", sum);] *)
Definition report (sum : Z) : M unit :=
  printf_lld "Sum: " sum newline.

(** [free(arr);] *)
Definition release (arr : ptr) : M unit := free arr.

Definition main_with : M Z :=
  arr ← allocate;
  if is_null arr then ret 1 else
  populate arr;;
  sum ← reduce arr;
  report sum;;
  release arr;;
  ret 0.
End Program.

Definition main (e : env) : M Z := main_with e SIZE.

(** Running the program from the initial state. *)
Definition run (e : env) (N : Z) : outcome Z := main_with e N init_state.

(** What a run shows to the outside: exit status and standard output.  A
    faulting run has no defined observation. *)
Definition exit_code (o : outcome Z) : option Z :=
  match o with Done c _ => Some c | Crash _ _ => None end.

Definition output (o : outcome Z) : option string :=
  match o with Done _ s => Some (stdout s) | Crash _ _ => None end.

Definition final_state {A} (o : outcome A) : state :=
  match o with Done _ s => s | Crash _ s => s end.

(** ** Specification vocabulary *)

(** The buffer after [populate]: cell [k] holds [k * 2]. *)
Definition evens (n : nat) : list Z :=
  (fun k => Z.of_nat k * 2) <$> seq 0 n.

(** The buffer after the first [n] iterations of [populate], started on
    the cells [cells]. *)
Definition filled (n : nat) (cells : list Z) : list Z :=
  evens n ++ drop n cells.

Definition sum_list (l : list Z) : Z := foldr Z.add 0 l.

(** The events of the two loops, as functions of the iteration number. *)
Definition store_event (p : ptr) (k : nat) : event :=
  EvStore p (Z.of_nat k) (Z.of_nat k * 2).

Definition load_event (p : ptr) (k : nat) : event :=
  EvLoad p (Z.of_nat k) (Z.of_nat k * 2).

(** The history entries the two loops append: the event of iteration [k]
    with the heap it leaves. *)
Definition store_entry (b : positive) (h0 : gmap positive (list Z))
    (cells : list Z) (k : nat) : event * gmap positive (list Z) :=
  (store_event (Ptr b) k, <[b := filled (S k) cells]> h0).

Definition load_entry (b : positive) (h : gmap positive (list Z))
    (k : nat) : event * gmap positive (list Z) :=
  (load_event (Ptr b) k, h).

(** The largest buffer size for which no [int] computation of the program
    overflows: [(N - 1) * 2 <= INT_MAX]. *)
Definition MAX_N : Z := 1073741824.

(** The line [report] prints for a sum. *)
Definition sum_line (sum : Z) : string :=
  ("Sum: " ++ lld sum ++ newline)%string.

(** The states a run whose allocation succeeded goes through: after
    [allocate], [populate], [reduce], [report] and [release]. *)
Definition allocated_state (e : env) (N : Z) : state :=
  let h : gmap positive (list Z) :=
    <[1%positive := fresh_cells e (N * sizeof_int)]> ∅ in
  mkState h 2%positive EmptyString
    [(EvMalloc (N * sizeof_int) (Ptr 1), h)].

Definition populated_state (e : env) (N : Z) : state :=
  mkState (<[1%positive := evens (Z.to_nat N)]> ∅) 2%positive EmptyString
    (history (allocated_state e N)
     ++ (store_entry 1 ∅ (fresh_cells e (N * sizeof_int))
           <$> seq 0 (Z.to_nat N))).

Definition reduced_state (e : env) (N : Z) : state :=
  let s := populated_state e N in
  mkState (heap s) 2%positive EmptyString
    (history s ++ (load_entry 1 (heap s) <$> seq 0 (Z.to_nat N))).

Definition reported_state (e : env) (N : Z) : state :=
  let s := reduced_state e N in
  let line := sum_line (N * (N - 1)) in
  mkState (heap s) 2%positive line (history s ++ [(EvPrint line, heap s)]).

Definition success_state (e : env) (N : Z) : state :=
  let s := reported_state e N in
  mkState ∅ 2%positive (stdout s)
    (history s ++ [(EvFree (Ptr 1), ∅)]).

(** The final state of a run whose allocation failed. *)
Definition failure_state (N : Z) : state :=
  mkState ∅ 1%positive EmptyString
    [(EvMalloc (size_mul (size_of_int N) sizeof_int) NULL, ∅)].

(** Classification of events. *)
Definition is_store (ev : event) : bool :=
  match ev with EvStore _ _ _ => true | _ => false end.
Definition is_print (ev : event) : bool :=
  match ev with EvPrint _ => true | _ => false end.
Definition is_free (ev : event) : bool :=
  match ev with EvFree _ => true | _ => false end.

(** [writes_index i ev]: the event is a store to index [i]. *)
Definition writes_index (i : Z) (ev : event) : bool :=
  match ev with EvStore _ j _ => i =? j | _ => false end.

(** Number of events of a kind in a trace. *)
Definition count (f : event -> bool) (t : list event) : nat :=
  length (List.filter f t).

(** The length, in cells, of the block a pointer designates in a heap;
    [None] when the block is not live. *)
Definition buffer_length (h : gmap positive (list Z)) (p : ptr) : option Z :=
  match p with
  | NULL => None
  | Ptr b => (fun cells : list Z => Z.of_nat (length cells)) <$> h !! b
  end.

(** An access event stays inside a buffer of [N] cells, and a stored
    value is the [int] [i * 2]. *)
Definition access_ok (N : Z) (ev : event) : bool :=
  match ev with
  | EvStore _ i v => (0 <=? i) && (i <? N) && (v =? i * 2) && in_int v
  | EvLoad _ i _ => (0 <=? i) && (i <? N)
  | _ => true
  end.

(** Concrete environments: an allocator that always succeeds, with two
    different contents of fresh memory, and one that always fails. *)
Definition env_ok : env := mkEnv (fun _ => true) (fun k => Z.of_nat k + 7).
Definition env_ok' : env := mkEnv (fun _ => true) (fun _ => -1).
Definition env_fail : env := mkEnv (fun _ => false) (fun _ => 0).

(** ** Vocabulary for the properties of the loops on any buffer *)

(** The cells of an [int] array hold values of type [int]. *)
Definition int_cells (cells : list Z) : Prop :=
  Forall (fun v => in_int v = true) cells.

(** The load of iteration [k] of [reduce] on a buffer holding [cells]. *)
Definition read_event (p : ptr) (cells : list Z) (k : nat) : event :=
  EvLoad p (Z.of_nat k) (nth k cells 0).

Definition is_load (ev : event) : bool :=
  match ev with EvLoad _ _ _ => true | _ => false end.

(** A state with two live blocks, some output already written and an
    allocator whose next block is fresh. *)
Definition sample_state : state :=
  mkState (<[5%positive := [5; -7; 9; 100]]> (<[2%positive := [1; 2]]> ∅))
    6%positive "log: " [].

(** * Proofs *)

(** ** Integer ranges *)

Lemma in_int_spec z : in_int z = true <-> INT_MIN <= z <= INT_MAX.
Proof. unfold in_int. rewrite andb_true_iff, !Z.leb_le. tauto. Qed.

Lemma in_llong_spec z : in_llong z = true <-> LLONG_MIN <= z <= LLONG_MAX.
Proof. unfold in_llong. rewrite andb_true_iff, !Z.leb_le. tauto. Qed.

Lemma in_bounds_spec i (cells : list Z) :
  in_bounds i cells = true <-> 0 <= i < Z.of_nat (length cells).
Proof. unfold in_bounds. rewrite andb_true_iff, Z.leb_le, Z.ltb_lt. tauto. Qed.

Lemma size_of_int_small z : 0 <= z <= SIZE_MAX -> size_of_int z = z.
Proof. intros H. unfold size_of_int. apply Z.mod_small. lia. Qed.

Lemma size_mul_small a b : 0 <= a * b <= SIZE_MAX -> size_mul a b = a * b.
Proof. intros H. unfold size_mul. apply Z.mod_small. lia. Qed.

Lemma request_bytes N :
  0 <= N <= MAX_N -> size_mul (size_of_int N) sizeof_int = N * sizeof_int.
Proof.
  unfold MAX_N, sizeof_int. intros H.
  rewrite size_of_int_small by (unfold SIZE_MAX; lia).
  apply size_mul_small. unfold SIZE_MAX. lia.
Qed.

(** ** The monad *)

Lemma bind_Done {A B} (m : M A) (k : A -> M B) s a s' :
  m s = Done a s' -> (m ≫= k) s = k a s'.
Proof. intros H. unfold mbind, M_bind, bind. by rewrite H. Qed.

Lemma int_add_Done a b s :
  INT_MIN <= a + b <= INT_MAX -> int_add a b s = Done (a + b) s.
Proof.
  intros H. unfold int_add. apply in_int_spec in H. by rewrite H.
Qed.

Lemma int_mul_Done a b s :
  INT_MIN <= a * b <= INT_MAX -> int_mul a b s = Done (a * b) s.
Proof.
  intros H. unfold int_mul. apply in_int_spec in H. by rewrite H.
Qed.

Lemma llong_add_Done a b s :
  LLONG_MIN <= a + b <= LLONG_MAX -> llong_add a b s = Done (a + b) s.
Proof.
  intros H. unfold llong_add. apply in_llong_spec in H. by rewrite H.
Qed.

(** ** The loop rule: total correctness of [for_int] from an invariant *)

Section LoopRule.
Context {A : Type}.
Variable I : Z -> A -> state -> Prop.
Variable body : Z -> A -> M A.
Variables lo hi : Z.
Hypothesis lo_int : INT_MIN <= lo.
Hypothesis hi_int : hi <= INT_MAX.
Hypothesis body_ok : forall i acc s,
  lo <= i < hi -> I i acc s ->
  exists acc' s', body i acc s = Done acc' s' /\ I (i + 1) acc' s'.

Lemma for_loop_inv (k : nat) : forall (fuel : nat) i acc s,
  i + Z.of_nat k = hi -> lo <= i -> (k < fuel)%nat -> I i acc s ->
  exists acc' s', for_loop fuel i hi body acc s = Done acc' s'
                  /\ I hi acc' s'.
Proof.
  induction k as [|k IH]; intros fuel i acc s Hk Hlo Hfuel HI;
    (destruct fuel as [|fuel]; [lia|]); simpl.
  - assert ((i <? hi) = false) as -> by (apply Z.ltb_ge; lia).
    exists acc, s. split; [done|]. by replace hi with i by lia.
  - assert ((i <? hi) = true) as -> by (apply Z.ltb_lt; lia).
    destruct (body_ok i acc s) as (acc' & s' & Hb & HI'); [lia|done|].
    rewrite (bind_Done _ _ _ _ _ Hb).
    rewrite (bind_Done _ _ _ _ _ (int_add_Done i 1 s' ltac:(lia))).
    apply IH; [lia|lia|lia|done].
Qed.

Lemma for_int_inv acc s :
  lo <= hi -> I lo acc s ->
  exists acc' s', for_int lo hi body acc s = Done acc' s' /\ I hi acc' s'.
Proof.
  intros Hle HI. unfold for_int.
  apply (for_loop_inv (Z.to_nat (hi - lo))); [lia|lia|lia|done].
Qed.
End LoopRule.

(** ** The buffer contents *)

Lemma length_evens n : length (evens n) = n.
Proof. unfold evens. by rewrite length_fmap, length_seq. Qed.

Lemma evens_S n : evens (S n) = evens n ++ [Z.of_nat n * 2].
Proof. unfold evens. by rewrite seq_S, fmap_app. Qed.

Lemma evens_lookup n k :
  (k < n)%nat -> evens n !! k = Some (Z.of_nat k * 2).
Proof.
  intros H. unfold evens. rewrite list_lookup_fmap.
  by rewrite lookup_seq_lt.
Qed.

Lemma filled_0 (cells : list Z) : filled 0 cells = cells.
Proof. done. Qed.

Lemma filled_all (cells : list Z) :
  filled (length cells) cells = evens (length cells).
Proof. unfold filled. by rewrite drop_all, app_nil_r. Qed.

Lemma length_filled n (cells : list Z) :
  (n <= length cells)%nat -> length (filled n cells) = length cells.
Proof.
  intros H. unfold filled.
  rewrite length_app, length_evens, length_drop. lia.
Qed.

Lemma filled_step n (cells : list Z) :
  (n < length cells)%nat ->
  <[n := Z.of_nat n * 2]> (filled n cells) = filled (S n) cells.
Proof.
  intros H. unfold filled.
  destruct (lookup_lt_is_Some_2 cells n H) as [x Hx].
  rewrite insert_app_r_alt by (rewrite length_evens; lia).
  rewrite length_evens, Nat.sub_diag, (drop_S _ _ _ Hx), evens_S.
  by rewrite <- app_assoc.
Qed.

Lemma sum_list_app l1 l2 : sum_list (l1 ++ l2) = sum_list l1 + sum_list l2.
Proof.
  unfold sum_list. induction l1 as [|x l1 IH]; simpl; [done|].
  rewrite IH. lia.
Qed.

(** Gauss: the sum of the first [n] even numbers. *)
Lemma sum_list_evens n :
  sum_list (evens n) = Z.of_nat n * (Z.of_nat n - 1).
Proof.
  induction n as [|n IH]; [done|].
  rewrite evens_S, sum_list_app, IH. unfold sum_list. simpl. lia.
Qed.

Lemma fresh_cells_length e N :
  0 <= N -> length (fresh_cells e (N * sizeof_int)) = Z.to_nat N.
Proof.
  intros H. unfold fresh_cells, sizeof_int.
  rewrite length_fmap, length_seq. f_equal. by apply Z.div_mul.
Qed.

(** ** The primitives on a live block *)

Lemma store_Done b i v s (cells : list Z) :
  heap s !! b = Some cells -> 0 <= i < Z.of_nat (length cells) ->
  store (Ptr b) i v s =
    Done tt
      (mkState (<[b := <[Z.to_nat i := v]> cells]> (heap s)) (next_block s)
         (stdout s)
         (history s
            ++ [(EvStore (Ptr b) i v,
                 <[b := <[Z.to_nat i := v]> cells]> (heap s))])).
Proof.
  intros Hb Hi. unfold store. rewrite Hb.
  apply in_bounds_spec in Hi. by rewrite Hi.
Qed.

Lemma load_Done b i v s (cells : list Z) :
  heap s !! b = Some cells -> 0 <= i < Z.of_nat (length cells) ->
  cells !! Z.to_nat i = Some v ->
  load (Ptr b) i s =
    Done v
      (mkState (heap s) (next_block s) (stdout s)
         (history s ++ [(EvLoad (Ptr b) i v, heap s)])).
Proof.
  intros Hb Hi Hv. unfold load. rewrite Hb.
  apply in_bounds_spec in Hi. by rewrite Hi, Hv.
Qed.

(** ** The two loops *)

Section Loops.
Variable e : env.
Variable N : Z.
Hypothesis N_range : 0 <= N <= MAX_N.
Variable b : positive.

(** [populate] on a live block of [N] cells cannot fail; it leaves the
    block holding [evens] and appends one store per index. *)
Lemma populate_Done s (cells : list Z) :
  heap s !! b = Some cells -> length cells = Z.to_nat N ->
  populate N (Ptr b) s =
    Done tt
      (mkState (<[b := evens (Z.to_nat N)]> (heap s)) (next_block s)
         (stdout s)
         (history s
            ++ (store_entry b (heap s) cells <$> seq 0 (Z.to_nat N)))).
Proof.
  intros Hb Hlen. unfold populate.
  pose (I := fun (i : Z) (_ : unit) (s' : state) =>
    0 <= i <= N /\
    s' = mkState (<[b := filled (Z.to_nat i) cells]> (heap s))
           (next_block s) (stdout s)
           (history s
              ++ (store_entry b (heap s) cells <$> seq 0 (Z.to_nat i)))).
  destruct (for_int_inv I
              (fun i _ => v ← int_mul i 2; store (Ptr b) i v) 0 N)
    with (acc := tt) (s := s) as ([] & s' & Hrun & HI).
  - unfold INT_MIN. lia.
  - unfold MAX_N, INT_MAX in *. lia.
  - intros i [] s1 Hi [_ ->].
    rewrite (bind_Done _ _ _ _ _ (int_mul_Done i 2 _ ltac:(
      unfold MAX_N, INT_MIN, INT_MAX in *; lia))).
    erewrite store_Done; [| simpl; apply lookup_insert_eq
                           | rewrite length_filled; lia ].
    eexists tt, _. split; [done|]. split; [lia|]. simpl.
    rewrite insert_insert_eq.
    replace (Z.to_nat (i + 1)) with (S (Z.to_nat i)) by lia.
    replace (i * 2) with (Z.of_nat (Z.to_nat i) * 2) by lia.
    rewrite filled_step by lia.
    rewrite seq_S, fmap_app, app_assoc. simpl.
    unfold store_entry at 3, store_event. by rewrite Z2Nat.id by lia.
  - lia.
  - split; [lia|]. simpl. rewrite filled_0, insert_id by done.
    rewrite app_nil_r. by destruct s.
  - rewrite Hrun. destruct HI as [_ ->].
    by rewrite <- Hlen, filled_all.
Qed.

(** [reduce] over the first [N] cells of a block holding [evens] cannot
    fail; it returns [N * (N - 1)] and appends one load per index. *)
Lemma reduce_Done s (m : nat) :
  heap s !! b = Some (evens m) -> (Z.to_nat N <= m)%nat ->
  reduce N (Ptr b) s =
    Done (N * (N - 1))
      (mkState (heap s) (next_block s) (stdout s)
         (history s ++ (load_entry b (heap s) <$> seq 0 (Z.to_nat N)))).
Proof.
  intros Hb Hm. unfold reduce.
  pose (I := fun (i : Z) (acc : Z) (s' : state) =>
    0 <= i <= N /\ acc = i * (i - 1) /\
    s' = mkState (heap s) (next_block s) (stdout s)
           (history s
              ++ (load_entry b (heap s) <$> seq 0 (Z.to_nat i)))).
  destruct (for_int_inv I
              (fun i sum => x ← load (Ptr b) i; llong_add sum x) 0 N)
    with (acc := 0) (s := s) as (acc & s' & Hrun & HI).
  - unfold INT_MIN. lia.
  - unfold MAX_N, INT_MAX in *. lia.
  - intros i acc s1 Hi (_ & -> & ->).
    erewrite bind_Done; cycle 1.
    { eapply load_Done; [done| rewrite length_evens; lia |].
      apply evens_lookup. lia. }
    rewrite Z2Nat.id by lia.
    rewrite llong_add_Done
      by (unfold MAX_N, LLONG_MIN, LLONG_MAX in *; nia).
    eexists _, _. split; [done|]. split; [lia|]. split; [lia|]. simpl.
    replace (Z.to_nat (i + 1)) with (S (Z.to_nat i)) by lia.
    rewrite seq_S, fmap_app, app_assoc. simpl.
    unfold load_entry at 3, load_event. by rewrite Z2Nat.id by lia.
  - lia.
  - split; [lia|]. split; [lia|]. simpl. rewrite app_nil_r.
    by destruct s.
  - rewrite Hrun. by destruct HI as (_ & -> & ->).
Qed.
End Loops.

(** ** Whole runs *)

(** A run whose allocation fails returns 1 right after [malloc]. *)
Lemma run_failure e N :
  malloc_succeeds e (size_mul (size_of_int N) sizeof_int) = false ->
  run e N = Done 1 (failure_state N).
Proof.
  intros Hm. unfold run, main_with, allocate.
  erewrite bind_Done; [| unfold malloc; by rewrite Hm ]. done.
Qed.

(** The five steps of a run whose allocation succeeds. *)
Section Steps.
Variable e : env.
Variable N : Z.
Hypothesis N_range : 0 <= N <= MAX_N.
Hypothesis malloc_ok : malloc_succeeds e (N * sizeof_int) = true.

Lemma allocate_run :
  allocate e N init_state = Done (Ptr 1) (allocated_state e N).
Proof.
  unfold allocate, malloc. rewrite request_bytes by done.
  by rewrite malloc_ok.
Qed.

Lemma populate_run :
  populate N (Ptr 1) (allocated_state e N) = Done tt (populated_state e N).
Proof.
  rewrite populate_Done with (cells := fresh_cells e (N * sizeof_int));
    [| done | apply lookup_insert_eq | apply fresh_cells_length; lia ].
  unfold populated_state. simpl. by rewrite insert_insert_eq.
Qed.

Lemma reduce_run :
  reduce N (Ptr 1) (populated_state e N)
  = Done (N * (N - 1)) (reduced_state e N).
Proof.
  rewrite reduce_Done with (m := Z.to_nat N);
    [done | done | apply lookup_insert_eq | done ].
Qed.

Lemma report_run :
  report (N * (N - 1)) (reduced_state e N) = Done tt (reported_state e N).
Proof. done. Qed.

Lemma release_run :
  release (Ptr 1) (reported_state e N) = Done tt (success_state e N).
Proof.
  unfold release, free. simpl. rewrite lookup_insert_eq.
  unfold success_state. simpl. by rewrite delete_insert_eq, delete_empty.
Qed.

(** A run whose allocation succeeds returns 0 in [success_state]. *)
Lemma run_success : run e N = Done 0 (success_state e N).
Proof.
  unfold run, main_with.
  rewrite (bind_Done _ _ _ _ _ allocate_run). simpl.
  rewrite (bind_Done _ _ _ _ _ populate_run).
  rewrite (bind_Done _ _ _ _ _ reduce_run).
  rewrite (bind_Done _ _ _ _ _ report_run).
  by rewrite (bind_Done _ _ _ _ _ release_run).
Qed.
End Steps.

(** Every run terminates without a fault, in one of the two states. *)
Lemma run_cases e N :
  0 <= N <= MAX_N ->
  (malloc_succeeds e (N * sizeof_int) = true
   /\ run e N = Done 0 (success_state e N))
  \/ (malloc_succeeds e (N * sizeof_int) = false
      /\ run e N = Done 1 (failure_state N)).
Proof.
  intros HN. destruct (malloc_succeeds e (N * sizeof_int)) eqn:Hm.
  - left. split; [done|]. by apply run_success.
  - right. split; [done|]. apply run_failure. by rewrite request_bytes.
Qed.

Lemma SIZE_range : 0 <= SIZE <= MAX_N.
Proof. unfold SIZE, MAX_N. lia. Qed.

(** ** Traces *)

Lemma trace_populated e N :
  trace (populated_state e N)
  = [EvMalloc (N * sizeof_int) (Ptr 1)]
    ++ (store_event (Ptr 1) <$> seq 0 (Z.to_nat N)).
Proof.
  unfold trace, populated_state. simpl.
  by rewrite <- list_fmap_compose.
Qed.

Lemma trace_success e N :
  trace (success_state e N)
  = [EvMalloc (N * sizeof_int) (Ptr 1)]
    ++ (store_event (Ptr 1) <$> seq 0 (Z.to_nat N))
    ++ (load_event (Ptr 1) <$> seq 0 (Z.to_nat N))
    ++ [EvPrint (sum_line (N * (N - 1))); EvFree (Ptr 1)].
Proof.
  unfold trace, success_state, reported_state, reduced_state,
    populated_state. simpl.
  rewrite !fmap_app, <- !app_assoc, <- !list_fmap_compose. done.
Qed.

Lemma filter_fmap_true (f : event -> bool) (g : nat -> event) l :
  (forall k, f (g k) = true) -> List.filter f (g <$> l) = g <$> l.
Proof.
  intros H. induction l as [|k l IH]; [done|].
  rewrite fmap_cons. cbn [List.filter]. by rewrite H, IH.
Qed.

Lemma filter_fmap_false (f : event -> bool) (g : nat -> event) l :
  (forall k, f (g k) = false) -> List.filter f (g <$> l) = [].
Proof.
  intros H. induction l as [|k l IH]; [done|].
  rewrite fmap_cons. cbn [List.filter]. by rewrite H, IH.
Qed.

Lemma count_app f t1 t2 : count f (t1 ++ t2) = (count f t1 + count f t2)%nat.
Proof. unfold count. by rewrite List.filter_app, length_app. Qed.

Lemma count_fmap_false (f : event -> bool) (g : nat -> event) l :
  (forall k, f (g k) = false) -> count f (g <$> l) = 0%nat.
Proof. intros H. unfold count. by rewrite filter_fmap_false. Qed.

(** Among the stores of the first [n] iterations, index [i] is written
    once if [i < n] and not at all otherwise. *)
Lemma count_writes_index p i n :
  0 <= i ->
  count (writes_index i) (store_event p <$> seq 0 n)
  = if Z.of_nat n <=? i then 0%nat else 1%nat.
Proof.
  intros Hi. induction n as [|n IH].
  - change (Z.of_nat 0) with 0. by destruct (Z.leb_spec 0 i); [|lia].
  - rewrite seq_S, fmap_app, count_app, IH. unfold count. simpl.
    destruct (Z.leb_spec (Z.of_nat n) i), (Z.leb_spec (Z.of_nat (S n)) i),
      (Z.eqb_spec i (Z.of_nat n)); simpl; lia.
Qed.

(** ** The model at work on small inputs *)

Example run_3 : run env_ok 3 = Done 0 (success_state env_ok 3).
Proof. vm_compute. reflexivity. Qed.

Example run_3_output :
  output (run env_ok 3) = Some ("Sum: 6" ++ newline)%string.
Proof. vm_compute. reflexivity. Qed.

Example run_3_trace :
  trace (final_state (run env_ok 3))
  = [EvMalloc 12 (Ptr 1);
     EvStore (Ptr 1) 0 0; EvStore (Ptr 1) 1 2; EvStore (Ptr 1) 2 4;
     EvLoad (Ptr 1) 0 0; EvLoad (Ptr 1) 1 2; EvLoad (Ptr 1) 2 4;
     EvPrint ("Sum: 6" ++ newline)%string; EvFree (Ptr 1)].
Proof. vm_compute. reflexivity. Qed.

Example run_3_fails : run env_fail 3 = Done 1 (failure_state 3).
Proof. vm_compute. reflexivity. Qed.

(** The faults of the model are reachable by programs other than [main]:
    a loop that runs one cell too far, a second free, a store after the
    free, a store through [NULL], a product and a sum that leave their
    type. *)
Example populate_overrun :
  exists s, populate 4 (Ptr 1) (allocated_state env_ok 3)
            = Crash OutOfBounds s.
Proof. eexists. vm_compute. reflexivity. Qed.

Example free_twice :
  exists s, (free (Ptr 1);; free (Ptr 1)) (allocated_state env_ok 3)
            = Crash InvalidFree s.
Proof. eexists. vm_compute. reflexivity. Qed.

Example store_after_free :
  exists s, (free (Ptr 1);; store (Ptr 1) 0 0) (allocated_state env_ok 3)
            = Crash InvalidBlock s.
Proof. eexists. vm_compute. reflexivity. Qed.

Example store_through_null :
  store NULL 0 0 init_state = Crash NullDeref init_state.
Proof. reflexivity. Qed.

Example int_mul_overflows :
  int_mul MAX_N 2 init_state = Crash SignedOverflow init_state.
Proof. reflexivity. Qed.

Example llong_add_overflows :
  llong_add LLONG_MAX 1 init_state = Crash SignedOverflow init_state.
Proof. reflexivity. Qed.

(** The decimal conversion on a few values. *)
Example lld_values :
  lld 0 = "0"%string /\ lld 999999000000 = "999999000000"%string
  /\ lld (-5) = "-5"%string.
Proof. repeat split. Qed.

(** ** The sum, for any buffer size *)

Lemma sum_list_doubles n :
  sum_list ((fun k => 2 * Z.of_nat k) <$> seq 0 n)
  = Z.of_nat n * (Z.of_nat n - 1).
Proof.
  rewrite <- sum_list_evens. f_equal. unfold evens.
  apply list_fmap_ext. intros _ k _. lia.
Qed.

Section AnySize.
Variable e : env.
Variable N : Z.
Hypothesis N_range : 0 <= N <= MAX_N.
Hypothesis malloc_ok : malloc_succeeds e (N * sizeof_int) = true.

Lemma closed_form_is_sum :
  N * (N - 1) = sum_list ((fun k => 2 * Z.of_nat k) <$> seq 0 (Z.to_nat N)).
Proof. rewrite sum_list_doubles, Z2Nat.id; lia. Qed.

Lemma prints_success :
  List.filter is_print (trace (final_state (run e N)))
  = [EvPrint (sum_line (N * (N - 1)))].
Proof.
  rewrite run_success by done. cbn [final_state].
  rewrite trace_success, !List.filter_app.
  by rewrite !filter_fmap_false by done.
Qed.

Lemma output_success : output (run e N) = Some (sum_line (N * (N - 1))).
Proof. by rewrite run_success. Qed.

Lemma exit_success : exit_code (run e N) = Some 0.
Proof. by rewrite run_success. Qed.
(** The rest of [main] runs from the state [populate] leaves. *)
Lemma run_from_populated :
  run e N
  = (sum ← reduce N (Ptr 1); report sum;; release (Ptr 1);; ret 0)
      (populated_state e N).
Proof.
  unfold run, main_with.
  rewrite (bind_Done _ _ _ _ _ (allocate_run e N N_range malloc_ok)).
  cbn [is_null].
  by rewrite (bind_Done _ _ _ _ _ (populate_run e N N_range)).
Qed.

Lemma populated_buffer :
  heap (populated_state e N) !! 1%positive = Some (evens (Z.to_nat N)).
Proof. apply lookup_insert_eq. Qed.

Lemma evens_at i :
  0 <= i < N -> evens (Z.to_nat N) !! Z.to_nat i = Some (2 * i).
Proof.
  intros Hi. rewrite evens_lookup by lia. f_equal. lia.
Qed.

Lemma stores_populated :
  List.filter is_store (trace (populated_state e N))
  = store_event (Ptr 1) <$> seq 0 (Z.to_nat N).
Proof.
  rewrite trace_populated, List.filter_app.
  by rewrite filter_fmap_true by done.
Qed.

Lemma written_once i :
  0 <= i < N ->
  count (writes_index i) (trace (populated_state e N)) = 1%nat.
Proof.
  intros Hi. rewrite trace_populated, count_app.
  rewrite count_writes_index by lia.
  destruct (Z.leb_spec (Z.of_nat (Z.to_nat N)) i); [lia|done].
Qed.
(** The reduce loop stopped after [k] iterations: the accumulator is
    the exact sum of the first [k] cells, [k * (k - 1)]. *)
Lemma reduce_prefix k :
  0 <= k <= N ->
  exists s3, reduce k (Ptr 1) (populated_state e N) = Done (k * (k - 1)) s3.
Proof.
  intros Hk. eexists.
  apply reduce_Done with (m := Z.to_nat N);
    [lia | apply populated_buffer | lia].
Qed.

Lemma prefix_sum k :
  0 <= k <= N ->
  sum_list (take (Z.to_nat k) (evens (Z.to_nat N))) = k * (k - 1).
Proof.
  intros Hk. unfold evens. rewrite <- fmap_take, take_seq.
  replace (Z.to_nat k `min` Z.to_nat N)%nat with (Z.to_nat k) by lia.
  fold (evens (Z.to_nat k)). rewrite sum_list_evens. lia.
Qed.

Lemma prefix_sum_range k :
  0 <= k <= N ->
  0 <= k * (k - 1) <= N * (N - 1) /\ in_llong (k * (k - 1)) = true.
Proof.
  intros Hk.
  assert (0 <= k * (k - 1) <= N * (N - 1)) as Hr.
  { destruct (Z.eq_dec k 0) as [->|Hk0]; [nia|].
    split; [apply Z.mul_nonneg_nonneg; lia|].
    apply Z.mul_le_mono_nonneg; lia. }
  split; [done|]. apply in_llong_spec.
  assert (N * (N - 1) <= MAX_N * MAX_N).
  { destruct (Z.eq_dec N 0) as [E|E]; [rewrite E; by unfold MAX_N|].
    apply Z.mul_le_mono_nonneg; lia. }
  unfold MAX_N, LLONG_MIN, LLONG_MAX in *. lia.
Qed.

(** The free is the last event, right after the print, and the only
    one. *)
Lemma trace_success_shape :
  exists before,
    trace (success_state e N)
    = [EvMalloc (N * sizeof_int) (Ptr 1)] ++ before
      ++ [EvPrint (sum_line (N * (N - 1))); EvFree (Ptr 1)]
    /\ count is_free before = 0%nat /\ count is_print before = 0%nat.
Proof.
  exists ((store_event (Ptr 1) <$> seq 0 (Z.to_nat N))
          ++ (load_event (Ptr 1) <$> seq 0 (Z.to_nat N))).
  rewrite trace_success, <- !app_assoc. split; [done|].
  by rewrite !count_app, !count_fmap_false by done.
Qed.

Lemma frees_success : count is_free (trace (success_state e N)) = 1%nat.
Proof.
  rewrite trace_success, !count_app.
  by rewrite !count_fmap_false by done.
Qed.

(** In every heap of the history the buffer has [N] cells, until the
    free ends its life. *)
Lemma history_lengths :
  Forall (fun entry =>
            buffer_length entry.2 (Ptr 1)
            = if is_free entry.1 then None else Some N)
    (history (success_state e N)).
Proof.
  assert (Z.of_nat (Z.to_nat N) = N) as HZ by lia.
  assert (forall cells : list Z, length cells = Z.to_nat N ->
            buffer_length (<[1%positive := cells]> ∅) (Ptr 1) = Some N)
    as Hlen.
  { intros cells Hc. unfold buffer_length.
    rewrite lookup_insert_eq. simpl. by rewrite Hc, HZ. }
  unfold success_state, reported_state, reduced_state, populated_state,
    allocated_state. cbn [history heap stdout].
  repeat apply Forall_app_2.
  - apply Forall_singleton. cbn [fst snd is_free].
    apply Hlen, fresh_cells_length. lia.
  - apply Forall_fmap, Forall_forall. intros k Hk%elem_of_seq.
    cbn [fst snd compose store_entry store_event is_free].
    apply Hlen. rewrite length_filled; rewrite fresh_cells_length; lia.
  - apply Forall_fmap, Forall_forall. intros k _.
    cbn [fst snd compose load_entry load_event is_free].
    apply Hlen, length_evens.
  - apply Forall_singleton. cbn [fst snd is_free].
    apply Hlen, length_evens.
  - apply Forall_singleton. done.
Qed.

(** Every access of the run is inside the buffer; every stored value is
    the [int] [i * 2]; the request is for [N * sizeof_int] bytes. *)
Lemma trace_events_ok :
  Forall (fun ev =>
            access_ok N ev = true
            /\ match ev with
               | EvMalloc bytes _ => bytes = N * sizeof_int
               | EvStore _ _ v => 0 <= v <= 2 * (N - 1)
               | _ => True
               end)
    (trace (success_state e N)).
Proof.
  rewrite trace_success. repeat apply Forall_app_2.
  - by apply Forall_singleton.
  - apply Forall_fmap, Forall_forall. intros k Hk%elem_of_seq.
    cbn [compose store_event access_ok]. split; [|lia].
    rewrite !andb_true_iff, Z.leb_le, Z.ltb_lt, Z.eqb_eq, in_int_spec.
    unfold MAX_N, INT_MIN, INT_MAX in *. lia.
  - apply Forall_fmap, Forall_forall. intros k Hk%elem_of_seq.
    cbn [compose load_event access_ok]. split; [|done].
    rewrite !andb_true_iff, Z.leb_le, Z.ltb_lt. lia.
  - by repeat constructor.
Qed.
End AnySize.

(** [populate] cannot fail on a live block of [N] cells. *)
Lemma populate_total N s b (cells : list Z) :
  0 <= N <= MAX_N ->
  heap s !! b = Some cells -> length cells = Z.to_nat N ->
  exists s', populate N (Ptr b) s = Done tt s'.
Proof. intros HN Hb Hlen. eexists. by apply populate_Done. Qed.

(** ** Runs whose allocation fails *)

Lemma trace_failure N :
  0 <= N <= MAX_N ->
  trace (failure_state N) = [EvMalloc (N * sizeof_int) NULL].
Proof.
  intros HN. unfold trace, failure_state. simpl.
  by rewrite request_bytes.
Qed.

Lemma output_failure e N :
  0 <= N <= MAX_N ->
  malloc_succeeds e (N * sizeof_int) = false ->
  output (run e N) = Some EmptyString.
Proof.
  intros HN Hm. by rewrite run_failure by (by rewrite request_bytes).
Qed.

Lemma exit_code_cases e N :
  0 <= N <= MAX_N ->
  exit_code (run e N)
  = Some (if malloc_succeeds e (N * sizeof_int) then 0 else 1).
Proof.
  intros HN. destruct (run_cases e N HN) as [[-> ->]|[-> ->]]; done.
Qed.

(** * The properties of the specification *)

(** C1 (correctness of sum).  When the allocation succeeds, the loop of
    lines 16-19, run on the state the populate loop leaves, returns the
    accumulator [999999000000]; this is the closed form [SIZE * (SIZE - 1)]
    and the sum of [2 * i] over [0 <= i < SIZE]; and it is the value the
    program reports. *)
Theorem sum_is_closed_form (e : env) :
  malloc_succeeds e (SIZE * sizeof_int) = true ->
  exists s1 s2 s3,
    allocate e SIZE init_state = Done (Ptr 1) s1
    /\ populate SIZE (Ptr 1) s1 = Done tt s2
    /\ reduce SIZE (Ptr 1) s2 = Done 999999000000 s3
    /\ 999999000000 = SIZE * (SIZE - 1)
    /\ 999999000000
       = sum_list ((fun k => 2 * Z.of_nat k) <$> seq 0 (Z.to_nat SIZE))
    /\ List.filter is_print (trace (final_state (main e init_state)))
       = [EvPrint (sum_line 999999000000)].
Proof.
  intros Hm. pose proof SIZE_range as HN.
  assert (999999000000 = SIZE * (SIZE - 1)) as -> by reflexivity.
  exists (allocated_state e SIZE), (populated_state e SIZE),
    (reduced_state e SIZE).
  split; [exact (allocate_run e SIZE HN Hm)|].
  split; [exact (populate_run e SIZE HN)|].
  split; [exact (reduce_run e SIZE HN)|].
  split; [reflexivity|].
  split; [exact (closed_form_is_sum SIZE HN)|].
  exact (prints_success e SIZE HN Hm).
Qed.

(** The property at the environment [env_ok]. *)
Lemma sum_is_closed_form_witness :
  malloc_succeeds env_ok (SIZE * sizeof_int) = true
  /\ exists s1 s2 s3,
    allocate env_ok SIZE init_state = Done (Ptr 1) s1
    /\ populate SIZE (Ptr 1) s1 = Done tt s2
    /\ reduce SIZE (Ptr 1) s2 = Done 999999000000 s3
    /\ 999999000000 = SIZE * (SIZE - 1)
    /\ 999999000000
       = sum_list ((fun k => 2 * Z.of_nat k) <$> seq 0 (Z.to_nat SIZE))
    /\ List.filter is_print (trace (final_state (main env_ok init_state)))
       = [EvPrint (sum_line 999999000000)].
Proof.
  split; [reflexivity|]. apply (sum_is_closed_form env_ok). reflexivity.
Defined.

(** C2 (end-to-end scenario).  When the allocation succeeds, the standard
    output of the program is exactly the one line [Sum: 999999000000]
    followed by a line terminator, produced by a single print, and the
    exit code is 0. *)
Theorem end_to_end (e : env) :
  malloc_succeeds e (SIZE * sizeof_int) = true ->
  output (main e init_state) = Some ("Sum: 999999000000" ++ newline)%string
  /\ exit_code (main e init_state) = Some 0
  /\ List.filter is_print (trace (final_state (main e init_state)))
     = [EvPrint ("Sum: 999999000000" ++ newline)%string].
Proof.
  intros Hm. pose proof SIZE_range as HN.
  assert (("Sum: 999999000000" ++ newline)%string
          = sum_line (SIZE * (SIZE - 1))) as -> by (vm_compute; reflexivity).
  split; [exact (output_success e SIZE HN Hm)|].
  split; [exact (exit_success e SIZE HN Hm)|].
  exact (prints_success e SIZE HN Hm).
Qed.

(** The scenario at the environment [env_ok]. *)
Lemma end_to_end_witness :
  malloc_succeeds env_ok (SIZE * sizeof_int) = true
  /\ output (main env_ok init_state)
     = Some ("Sum: 999999000000" ++ newline)%string
  /\ exit_code (main env_ok init_state) = Some 0
  /\ List.filter is_print (trace (final_state (main env_ok init_state)))
     = [EvPrint ("Sum: 999999000000" ++ newline)%string].
Proof.
  split; [reflexivity|]. apply (end_to_end env_ok). reflexivity.
Defined.

(** C3 (correctness of fill).  When the allocation succeeds, the populate
    loop of lines 12-14 returns normally; in the state it leaves, which is
    the state the rest of [main] starts from, the buffer has [SIZE] cells
    and cell [i] holds [2 * i] for every [0 <= i < SIZE]; its stores are
    [arr[k] = k * 2] for [k = 0 .. SIZE - 1], so every index is written
    exactly once; and on any live block of [SIZE] cells the loop cannot
    fail. *)
Theorem fill_correct (e : env) :
  malloc_succeeds e (SIZE * sizeof_int) = true ->
  exists s1 s2 cells,
    allocate e SIZE init_state = Done (Ptr 1) s1
    /\ populate SIZE (Ptr 1) s1 = Done tt s2
    /\ main e init_state
       = (sum ← reduce SIZE (Ptr 1); report sum;; release (Ptr 1);; ret 0) s2
    /\ heap s2 !! 1%positive = Some cells
    /\ Z.of_nat (length cells) = SIZE
    /\ (forall i, 0 <= i < SIZE -> cells !! Z.to_nat i = Some (2 * i))
    /\ List.filter is_store (trace s2)
       = store_event (Ptr 1) <$> seq 0 (Z.to_nat SIZE)
    /\ (forall i, 0 <= i < SIZE ->
          count (writes_index i) (trace s2) = 1%nat)
    /\ (forall s b (cells0 : list Z),
          heap s !! b = Some cells0 -> length cells0 = Z.to_nat SIZE ->
          exists s', populate SIZE (Ptr b) s = Done tt s').
Proof.
  intros Hm. pose proof SIZE_range as HN.
  exists (allocated_state e SIZE), (populated_state e SIZE),
    (evens (Z.to_nat SIZE)).
  split; [exact (allocate_run e SIZE HN Hm)|].
  split; [exact (populate_run e SIZE HN)|].
  split; [exact (run_from_populated e SIZE HN Hm)|].
  split; [exact (populated_buffer e SIZE)|].
  split; [rewrite length_evens; apply Z2Nat.id; lia|].
  split; [exact (evens_at SIZE)|].
  split; [exact (stores_populated e SIZE)|].
  split; [exact (written_once e SIZE)|].
  intros s b cells0. exact (populate_total SIZE s b cells0 HN).
Qed.

(** The property at the environment [env_ok]. *)
Lemma fill_correct_witness :
  malloc_succeeds env_ok (SIZE * sizeof_int) = true
  /\ exists s1 s2 cells,
    allocate env_ok SIZE init_state = Done (Ptr 1) s1
    /\ populate SIZE (Ptr 1) s1 = Done tt s2
    /\ main env_ok init_state
       = (sum ← reduce SIZE (Ptr 1); report sum;; release (Ptr 1);; ret 0) s2
    /\ heap s2 !! 1%positive = Some cells
    /\ Z.of_nat (length cells) = SIZE
    /\ (forall i, 0 <= i < SIZE -> cells !! Z.to_nat i = Some (2 * i))
    /\ List.filter is_store (trace s2)
       = store_event (Ptr 1) <$> seq 0 (Z.to_nat SIZE)
    /\ (forall i, 0 <= i < SIZE ->
          count (writes_index i) (trace s2) = 1%nat)
    /\ (forall s b (cells0 : list Z),
          heap s !! b = Some cells0 -> length cells0 = Z.to_nat SIZE ->
          exists s', populate SIZE (Ptr b) s = Done tt s').
Proof.
  split; [reflexivity|]. apply (fill_correct env_ok). reflexivity.
Defined.

(** C4 (allocation failure).  The program exits with status 1 if and only
    if the allocation request fails, and with status 0 if and only if it
    succeeds; no other status exists.  On failure the only event of the
    run is the failed request: no store, no load, no print, no free, and
    the standard output is empty. *)
Theorem allocation_failure (e : env) :
  let o := main e init_state in
  (malloc_succeeds e (SIZE * sizeof_int) = false <-> exit_code o = Some 1)
  /\ (malloc_succeeds e (SIZE * sizeof_int) = true <-> exit_code o = Some 0)
  /\ (exit_code o = Some 0 \/ exit_code o = Some 1)
  /\ (malloc_succeeds e (SIZE * sizeof_int) = false ->
      trace (final_state o) = [EvMalloc (SIZE * sizeof_int) NULL]
      /\ output o = Some EmptyString
      /\ heap (final_state o) = ∅).
Proof.
  intros o. pose proof SIZE_range as HN.
  assert (exit_code o
          = Some (if malloc_succeeds e (SIZE * sizeof_int) then 0 else 1))
    as Hc by exact (exit_code_cases e SIZE HN).
  destruct (run_cases e SIZE HN) as [[Hm Hr]|[Hm Hr]];
    rewrite Hc, Hm; (split; [split; [congruence|congruence]|]);
    (split; [split; [congruence|congruence]|]);
    (split; [by auto|]); intros Hf; [congruence|].
  subst o. change (main e init_state) with (run e SIZE). rewrite Hr.
  cbn [final_state output]. split; [exact (trace_failure SIZE HN)|done].
Qed.

(** The failure path at the environment [env_fail]. *)
Lemma allocation_failure_witness :
  malloc_succeeds env_fail (SIZE * sizeof_int) = false
  /\ trace (final_state (main env_fail init_state))
     = [EvMalloc (SIZE * sizeof_int) NULL]
  /\ output (main env_fail init_state) = Some EmptyString
  /\ heap (final_state (main env_fail init_state)) = ∅.
Proof.
  split; [reflexivity|].
  apply (proj2 (proj2 (proj2 (allocation_failure env_fail)))). reflexivity.
Defined.

(** C5 (no overflow).  The accumulator type is the 64-bit signed range
    [LLONG_MIN .. LLONG_MAX].  Stopping the reduce loop after any number
    [k <= SIZE] of iterations returns normally with the accumulator
    [k * (k - 1)], the exact sum of the first [k] cells, which lies in
    that range and is at most [999999000000]; so no addition wraps, and
    the reported value is the closed form.  A 32-bit accumulator could not
    hold the final value. *)
Theorem accumulator_no_overflow (e : env) :
  malloc_succeeds e (SIZE * sizeof_int) = true ->
  LLONG_MIN = - 2 ^ 63 /\ LLONG_MAX = 2 ^ 63 - 1
  /\ in_llong 999999000000 = true /\ in_int 999999000000 = false
  /\ (exists s1 s2 cells,
        allocate e SIZE init_state = Done (Ptr 1) s1
        /\ populate SIZE (Ptr 1) s1 = Done tt s2
        /\ heap s2 !! 1%positive = Some cells
        /\ forall k, 0 <= k <= SIZE ->
             (exists s3, reduce k (Ptr 1) s2 = Done (k * (k - 1)) s3)
             /\ k * (k - 1) = sum_list (take (Z.to_nat k) cells)
             /\ in_llong (k * (k - 1)) = true
             /\ 0 <= k * (k - 1) <= 999999000000)
  /\ output (main e init_state) = Some (sum_line (SIZE * (SIZE - 1))).
Proof.
  intros Hm. pose proof SIZE_range as HN.
  do 4 (split; [reflexivity|]). split.
  - exists (allocated_state e SIZE), (populated_state e SIZE),
      (evens (Z.to_nat SIZE)).
    split; [exact (allocate_run e SIZE HN Hm)|].
    split; [exact (populate_run e SIZE HN)|].
    split; [exact (populated_buffer e SIZE)|].
    intros k Hk.
    split; [exact (reduce_prefix e SIZE HN k Hk)|].
    split; [symmetry; exact (prefix_sum SIZE k Hk)|].
    destruct (prefix_sum_range SIZE HN k Hk) as [Hr Hin].
    split; [exact Hin|].
    assert (SIZE * (SIZE - 1) = 999999000000) as Heq by reflexivity.
    lia.
  - exact (output_success e SIZE HN Hm).
Qed.

(** The reported value at the environment [env_ok]. *)
Lemma accumulator_no_overflow_witness :
  malloc_succeeds env_ok (SIZE * sizeof_int) = true
  /\ output (main env_ok init_state) = Some (sum_line (SIZE * (SIZE - 1))).
Proof.
  split; [reflexivity|].
  apply (accumulator_no_overflow env_ok). reflexivity.
Defined.

(** C6 (release).  When the allocation succeeds the program returns 0 and
    its trace is the request, then events that are neither a print nor a
    free, then the print, then the free of the pointer that [malloc]
    returned: one free, after the report; the final heap is empty.  When
    the allocation fails the trace has no free and the heap is empty. *)
Theorem release_exactly_once (e : env) :
  let o := main e init_state in
  (malloc_succeeds e (SIZE * sizeof_int) = true ->
     exit_code o = Some 0
     /\ (exists before line,
           trace (final_state o)
           = [EvMalloc (SIZE * sizeof_int) (Ptr 1)] ++ before
             ++ [EvPrint line; EvFree (Ptr 1)]
           /\ count is_free before = 0%nat
           /\ count is_print before = 0%nat)
     /\ count is_free (trace (final_state o)) = 1%nat
     /\ heap (final_state o) = ∅)
  /\ (malloc_succeeds e (SIZE * sizeof_int) = false ->
      exit_code o = Some 1
      /\ count is_free (trace (final_state o)) = 0%nat
      /\ heap (final_state o) = ∅).
Proof.
  intros o. pose proof SIZE_range as HN. subst o.
  change (main e init_state) with (run e SIZE). split; intros Hm.
  - rewrite (run_success e SIZE HN Hm). cbn [exit_code final_state].
    split; [reflexivity|]. split.
    + destruct (trace_success_shape e SIZE) as (before & Ht & Hf & Hp).
      by exists before, (sum_line (SIZE * (SIZE - 1))).
    + split; [exact (frees_success e SIZE)|reflexivity].
  - rewrite (run_failure e SIZE) by (by rewrite request_bytes).
    cbn [exit_code final_state]. split; [reflexivity|].
    rewrite (trace_failure SIZE HN). split; reflexivity.
Qed.

(** Both paths, at the environments [env_ok] and [env_fail]. *)
Lemma release_exactly_once_witness :
  (malloc_succeeds env_ok (SIZE * sizeof_int) = true
   /\ count is_free (trace (final_state (main env_ok init_state))) = 1%nat
   /\ heap (final_state (main env_ok init_state)) = ∅)
  /\ (malloc_succeeds env_fail (SIZE * sizeof_int) = false
      /\ count is_free (trace (final_state (main env_fail init_state)))
         = 0%nat
      /\ heap (final_state (main env_fail init_state)) = ∅).
Proof.
  split; (split; [reflexivity|]).
  - apply (proj1 (release_exactly_once env_ok)). reflexivity.
  - apply (proj2 (release_exactly_once env_fail)). reflexivity.
Defined.

(** C7 (determinism).  Two runs in environments that agree on whether the
    request for the buffer is granted have the same standard output and
    the same exit code, both defined, whatever the fresh memory holds. *)
Theorem deterministic (e1 e2 : env) :
  malloc_succeeds e1 (SIZE * sizeof_int)
  = malloc_succeeds e2 (SIZE * sizeof_int) ->
  output (main e1 init_state) = output (main e2 init_state)
  /\ exit_code (main e1 init_state) = exit_code (main e2 init_state)
  /\ is_Some (output (main e1 init_state))
  /\ is_Some (exit_code (main e1 init_state)).
Proof.
  intros Hsame. pose proof SIZE_range as HN.
  change (main e1 init_state) with (run e1 SIZE).
  change (main e2 init_state) with (run e2 SIZE).
  rewrite (exit_code_cases e1 SIZE HN), (exit_code_cases e2 SIZE HN).
  destruct (malloc_succeeds e1 (SIZE * sizeof_int)) eqn:H1;
    symmetry in Hsame; rewrite Hsame.
  - rewrite (output_success e1 SIZE HN H1), (output_success e2 SIZE HN Hsame).
    eauto.
  - rewrite (output_failure e1 SIZE HN H1), (output_failure e2 SIZE HN Hsame).
    eauto.
Qed.

(** Two environments whose fresh memory differs, [env_ok] and [env_ok']. *)
Lemma deterministic_witness :
  malloc_succeeds env_ok (SIZE * sizeof_int)
  = malloc_succeeds env_ok' (SIZE * sizeof_int)
  /\ garbage env_ok 0%nat <> garbage env_ok' 0%nat
  /\ output (main env_ok init_state) = output (main env_ok' init_state)
  /\ exit_code (main env_ok init_state) = exit_code (main env_ok' init_state).
Proof.
  split; [reflexivity|]. split; [discriminate|].
  destruct (deterministic env_ok env_ok' eq_refl) as (Ho & Hc & _).
  exact (conj Ho Hc).
Defined.

(** C8 (length invariant).  When the allocation succeeds, the five steps
    of [main] return normally one after the other; in the states after
    [allocate], [populate], [reduce] and [report] the buffer has exactly
    [SIZE] cells, and [release] ends its life; and in every heap of the
    history of the run, which records the heap after each primitive
    operation, the buffer has exactly [SIZE] cells, except for the heap
    that the free leaves. *)
Theorem buffer_length_invariant (e : env) :
  malloc_succeeds e (SIZE * sizeof_int) = true ->
  exists s1 s2 s3 s4 s5 sum,
    allocate e SIZE init_state = Done (Ptr 1) s1
    /\ populate SIZE (Ptr 1) s1 = Done tt s2
    /\ reduce SIZE (Ptr 1) s2 = Done sum s3
    /\ report sum s3 = Done tt s4
    /\ release (Ptr 1) s4 = Done tt s5
    /\ main e init_state = Done 0 s5
    /\ Forall (fun s => buffer_length (heap s) (Ptr 1) = Some SIZE)
         [s1; s2; s3; s4]
    /\ buffer_length (heap s5) (Ptr 1) = None
    /\ Forall (fun entry =>
                 buffer_length entry.2 (Ptr 1)
                 = if is_free entry.1 then None else Some SIZE)
         (history s5).
Proof.
  intros Hm. pose proof SIZE_range as HN.
  exists (allocated_state e SIZE), (populated_state e SIZE),
    (reduced_state e SIZE), (reported_state e SIZE),
    (success_state e SIZE), (SIZE * (SIZE - 1)).
  split; [exact (allocate_run e SIZE HN Hm)|].
  split; [exact (populate_run e SIZE HN)|].
  split; [exact (reduce_run e SIZE HN)|].
  split; [exact (report_run e SIZE)|].
  split; [exact (release_run e SIZE)|].
  split; [exact (run_success e SIZE HN Hm)|].
  assert (forall cells : list Z, length cells = Z.to_nat SIZE ->
            buffer_length (<[1%positive := cells]> ∅) (Ptr 1) = Some SIZE)
    as Hlen.
  { intros cells Hc. unfold buffer_length.
    rewrite lookup_insert_eq. cbn [fmap option_fmap option_map].
    rewrite Hc, Z2Nat.id; [reflexivity|lia]. }
  split.
  - repeat apply Forall_cons_2; try apply Forall_nil_2.
    + apply Hlen, fresh_cells_length. lia.
    + apply Hlen, length_evens.
    + apply Hlen, length_evens.
    + apply Hlen, length_evens.
  - split; [reflexivity|]. exact (history_lengths e SIZE HN).
Qed.

(** The invariant at the environment [env_ok]. *)
Lemma buffer_length_invariant_witness :
  malloc_succeeds env_ok (SIZE * sizeof_int) = true
  /\ exists s1 s2 s3 s4 s5 sum,
    allocate env_ok SIZE init_state = Done (Ptr 1) s1
    /\ populate SIZE (Ptr 1) s1 = Done tt s2
    /\ reduce SIZE (Ptr 1) s2 = Done sum s3
    /\ report sum s3 = Done tt s4
    /\ release (Ptr 1) s4 = Done tt s5
    /\ main env_ok init_state = Done 0 s5
    /\ Forall (fun s => buffer_length (heap s) (Ptr 1) = Some SIZE)
         [s1; s2; s3; s4]
    /\ buffer_length (heap s5) (Ptr 1) = None
    /\ Forall (fun entry =>
                 buffer_length entry.2 (Ptr 1)
                 = if is_free entry.1 then None else Some SIZE)
         (history s5).
Proof.
  split; [reflexivity|].
  apply (buffer_length_invariant env_ok). reflexivity.
Defined.

(** C9 (boundary sizes).  With the program taken at size 0, no run
    faults; when the (empty) request is granted, the populate and reduce
    loops leave the trace unchanged, that is they perform no iteration,
    the sum is 0 and the output is [Sum: 0].  At size 1, when the request
    is granted, the run writes [buffer[0] = 0], reads it back, prints
    [Sum: 0] and returns 0. *)
Theorem boundary_sizes (e : env) :
  (exists c s, main_with e 0 init_state = Done c s)
  /\ (malloc_succeeds e 0 = true ->
      (exists s1 s2 s3,
         allocate e 0 init_state = Done (Ptr 1) s1
         /\ heap s1 !! 1%positive = Some []
         /\ populate 0 (Ptr 1) s1 = Done tt s2 /\ trace s2 = trace s1
         /\ reduce 0 (Ptr 1) s2 = Done 0 s3 /\ trace s3 = trace s2)
      /\ exit_code (main_with e 0 init_state) = Some 0
      /\ output (main_with e 0 init_state) = Some ("Sum: 0" ++ newline)%string
      /\ trace (final_state (main_with e 0 init_state))
         = [EvMalloc 0 (Ptr 1); EvPrint ("Sum: 0" ++ newline)%string;
            EvFree (Ptr 1)])
  /\ (malloc_succeeds e 4 = true ->
      exit_code (main_with e 1 init_state) = Some 0
      /\ output (main_with e 1 init_state) = Some ("Sum: 0" ++ newline)%string
      /\ trace (final_state (main_with e 1 init_state))
         = [EvMalloc 4 (Ptr 1); EvStore (Ptr 1) 0 0; EvLoad (Ptr 1) 0 0;
            EvPrint ("Sum: 0" ++ newline)%string; EvFree (Ptr 1)]).
Proof.
  assert (0 <= 0 <= MAX_N) as H0 by (unfold MAX_N; lia).
  assert (0 <= 1 <= MAX_N) as H1 by (unfold MAX_N; lia).
  change (main_with e 0 init_state) with (run e 0).
  change (main_with e 1 init_state) with (run e 1).
  split; [|split].
  - destruct (run_cases e 0 H0) as [[_ ->]|[_ ->]]; eauto.
  - intros Hm. split.
    + exists (allocated_state e 0), (populated_state e 0),
        (reduced_state e 0).
      split; [exact (allocate_run e 0 H0 Hm)|]. split; [reflexivity|].
      split; [exact (populate_run e 0 H0)|]. split; [reflexivity|].
      split; [exact (reduce_run e 0 H0)|reflexivity].
    + rewrite (run_success e 0 H0 Hm). cbn [exit_code output final_state].
      split; [reflexivity|]. split; [reflexivity|].
      rewrite trace_success. reflexivity.
  - intros Hm. rewrite (run_success e 1 H1 Hm).
    cbn [exit_code output final_state].
    split; [reflexivity|]. split; [reflexivity|].
    rewrite trace_success. reflexivity.
Qed.

(** Sizes 0 and 1 at the environment [env_ok]. *)
Lemma boundary_sizes_witness :
  (malloc_succeeds env_ok 0 = true
   /\ output (main_with env_ok 0 init_state)
      = Some ("Sum: 0" ++ newline)%string)
  /\ (malloc_succeeds env_ok 4 = true
      /\ output (main_with env_ok 1 init_state)
         = Some ("Sum: 0" ++ newline)%string).
Proof.
  split; (split; [reflexivity|]).
  - apply (proj1 (proj2 (boundary_sizes env_ok))). reflexivity.
  - apply (proj2 (proj2 (boundary_sizes env_ok))). reflexivity.
Defined.

(** C10 (memory safety).  No run of the program faults: no access
    outside the buffer, no access to a dead block, no signed overflow.
    Every store and load of the trace is at an index [0 <= i < SIZE];
    every stored value is [i * 2], an [int] between 0 and 1999998; the
    size computed for the request does not wrap and is 4000000 bytes. *)
Theorem memory_safe (e : env) :
  let o := main e init_state in
  (exists c s, o = Done c s)
  /\ Forall (fun ev =>
               access_ok SIZE ev = true
               /\ match ev with
                  | EvMalloc bytes _ => bytes = 4000000
                  | EvStore _ _ v => 0 <= v <= 1999998
                  | _ => True
                  end)
       (trace (final_state o))
  /\ size_mul (size_of_int SIZE) sizeof_int = SIZE * sizeof_int
  /\ SIZE * sizeof_int = 4000000
  /\ 4000000 <= SIZE_MAX /\ 1999998 <= INT_MAX /\ SIZE <= INT_MAX.
Proof.
  intros o. pose proof SIZE_range as HN. subst o.
  change (main e init_state) with (run e SIZE).
  split; [destruct (run_cases e SIZE HN) as [[_ ->]|[_ ->]]; eauto|].
  split; [|split; [exact (request_bytes SIZE HN)|by repeat split]].
  destruct (run_cases e SIZE HN) as [[_ ->]|[_ ->]]; cbn [final_state].
  - apply (Forall_impl _ _ _ (trace_events_ok e SIZE HN)).
    intros ev [Hacc Hev]. split; [exact Hacc|].
    destruct ev; [exact Hev|exact Hev|exact I|exact I|exact I].
  - rewrite (trace_failure SIZE HN). apply Forall_singleton.
    split; reflexivity.
Qed.

(** * Further properties of the code *)

(** ** The reduce loop on any buffer *)

Lemma sum_list_range (l : list Z) lo hi :
  Forall (fun v => lo <= v <= hi) l ->
  Z.of_nat (length l) * lo <= sum_list l <= Z.of_nat (length l) * hi.
Proof.
  unfold sum_list. induction 1 as [|v l Hv _ IH]; simpl length; simpl foldr.
  - lia.
  - rewrite Nat2Z.inj_succ. lia.
Qed.

Lemma int_cells_range cells :
  int_cells cells -> Forall (fun v => INT_MIN <= v <= INT_MAX) cells.
Proof.
  intros H. eapply Forall_impl; [exact H|].
  intros v Hv. by apply in_int_spec.
Qed.

Lemma trace_app_entries s (f : nat -> event * gmap positive (list Z)) l :
  (history s ++ (f <$> l)).*1 = trace s ++ ((fun k => (f k).1) <$> l).
Proof. unfold trace. by rewrite fmap_app, <- list_fmap_compose. Qed.

Section ReduceAny.
Variable N : Z.
Variable b : positive.
Variable cells : list Z.
Hypothesis N_int : 0 <= N <= INT_MAX.
Hypothesis N_cells : (Z.to_nat N <= length cells)%nat.
Hypothesis cells_int : int_cells (take (Z.to_nat N) cells).

Lemma prefix_sum_in_llong i v :
  0 <= i < N -> cells !! Z.to_nat i = Some v ->
  LLONG_MIN <= sum_list (take (Z.to_nat i) cells) + v <= LLONG_MAX.
Proof.
  intros Hi Hv.
  pose proof (int_cells_range _ cells_int) as Hr.
  assert (INT_MIN <= v <= INT_MAX) as Hvr.
  { eapply (proj1 (Forall_lookup _ _) Hr (Z.to_nat i)).
    rewrite lookup_take_lt by lia. exact Hv. }
  assert (Forall (fun v => INT_MIN <= v <= INT_MAX)
            (take (Z.to_nat i) cells)) as Hpre.
  { replace (take (Z.to_nat i) cells)
      with (take (Z.to_nat i) (take (Z.to_nat N) cells))
      by (rewrite take_take; f_equal; lia).
    by apply Forall_take. }
  apply sum_list_range in Hpre. rewrite length_take in Hpre.
  replace (Z.of_nat (Z.to_nat i `min` length cells)) with i in Hpre by lia.
  unfold INT_MIN, INT_MAX, LLONG_MIN, LLONG_MAX in *. nia.
Qed.

Lemma reduce_any_Done s :
  heap s !! b = Some cells ->
  reduce N (Ptr b) s =
    Done (sum_list (take (Z.to_nat N) cells))
      (mkState (heap s) (next_block s) (stdout s)
         (history s
            ++ ((fun k => (read_event (Ptr b) cells k, heap s))
                  <$> seq 0 (Z.to_nat N)))).
Proof.
  intros Hb. unfold reduce.
  pose (I := fun (i : Z) (acc : Z) (s' : state) =>
    0 <= i <= N /\ acc = sum_list (take (Z.to_nat i) cells) /\
    s' = mkState (heap s) (next_block s) (stdout s)
           (history s
              ++ ((fun k => (read_event (Ptr b) cells k, heap s))
                    <$> seq 0 (Z.to_nat i)))).
  destruct (for_int_inv I
              (fun i sum => x ← load (Ptr b) i; llong_add sum x) 0 N)
    with (acc := 0) (s := s) as (acc & s' & Hrun & HI).
  - unfold INT_MIN. lia.
  - lia.
  - intros i acc s1 Hi (_ & -> & ->).
    destruct (lookup_lt_is_Some_2 cells (Z.to_nat i)) as [v Hv]; [lia|].
    erewrite bind_Done; cycle 1.
    { eapply load_Done; [done | lia | exact Hv]. }
    rewrite llong_add_Done by (by apply prefix_sum_in_llong).
    eexists _, _. split; [done|]. split; [lia|].
    replace (Z.to_nat (i + 1)) with (S (Z.to_nat i)) by lia.
    split.
    + rewrite (take_S_r _ _ _ Hv), sum_list_app. f_equal.
      unfold sum_list. simpl. lia.
    + cbn [heap next_block stdout history].
      assert (nth (Z.to_nat i) cells 0 = v) as Hn
        by (by rewrite nth_lookup, Hv).
      rewrite seq_S, fmap_app, app_assoc. simpl.
      unfold read_event at 3. by rewrite Hn, Z2Nat.id by lia.
  - lia.
  - split; [lia|]. split; [done|]. simpl. rewrite app_nil_r.
    by destruct s.
  - rewrite Hrun. by destruct HI as (_ & -> & ->).
Qed.
End ReduceAny.

(** X1 (the reduce loop on any buffer).  On a live block whose first [N]
    cells hold arbitrary [int] values, for any [0 <= N <= INT_MAX], the
    loop of lines 16-19 returns normally with the exact sum of those [N]
    cells: no addition overflows the accumulator.  It leaves the heap and
    the standard output as they were, and reads the indices [0 .. N - 1]
    once each, in ascending order. *)
Theorem reduce_sums_any_buffer (N : Z) (b : positive) (cells : list Z)
    (s : state) :
  0 <= N <= INT_MAX ->
  heap s !! b = Some cells ->
  (Z.to_nat N <= length cells)%nat ->
  int_cells (take (Z.to_nat N) cells) ->
  exists s',
    reduce N (Ptr b) s = Done (sum_list (take (Z.to_nat N) cells)) s'
    /\ in_llong (sum_list (take (Z.to_nat N) cells)) = true
    /\ heap s' = heap s /\ stdout s' = stdout s
    /\ trace s'
       = trace s ++ (read_event (Ptr b) cells <$> seq 0 (Z.to_nat N)).
Proof.
  intros HN Hb Hlen Hint. eexists. split; [by apply reduce_any_Done|].
  split; [|split; [done|split; [done|]]].
  - apply in_llong_spec.
    pose proof (sum_list_range _ _ _ (int_cells_range _ Hint)) as Hr.
    rewrite length_take in Hr.
    replace (Z.of_nat (Z.to_nat N `min` length cells)) with N in Hr by lia.
    unfold INT_MIN, INT_MAX, LLONG_MIN, LLONG_MAX in *. nia.
  - unfold trace at 1. cbn [history]. by rewrite trace_app_entries.
Qed.

(** The loop on the first three cells of block 5 of [sample_state]. *)
Lemma reduce_sums_any_buffer_witness :
  exists s',
    reduce 3 (Ptr 5) sample_state = Done 7 s'
    /\ in_llong 7 = true
    /\ heap s' = heap sample_state /\ stdout s' = stdout sample_state
    /\ trace s'
       = [EvLoad (Ptr 5) 0 5; EvLoad (Ptr 5) 1 (-7); EvLoad (Ptr 5) 2 9].
Proof.
  apply (reduce_sums_any_buffer 3 5 [5; -7; 9; 100] sample_state).
  - unfold INT_MAX. lia.
  - reflexivity.
  - simpl. lia.
  - repeat constructor.
Defined.

(** ** The populate loop on any buffer *)

Lemma filled_lookup_lt n (cells : list Z) i :
  (i < n)%nat -> filled n cells !! i = Some (Z.of_nat i * 2).
Proof.
  intros Hi. unfold filled.
  rewrite lookup_app_l by (rewrite length_evens; lia).
  by apply evens_lookup.
Qed.

Lemma filled_lookup_ge n (cells : list Z) j :
  (n <= j)%nat -> filled n cells !! j = cells !! j.
Proof.
  intros Hj. unfold filled.
  rewrite lookup_app_r by (rewrite length_evens; lia).
  rewrite length_evens, lookup_drop. f_equal. lia.
Qed.

Section PopulateAny.
Variable N : Z.
Variable b : positive.
Variable cells : list Z.
Hypothesis N_range : 0 <= N <= MAX_N.
Hypothesis N_cells : (Z.to_nat N <= length cells)%nat.

(** One iteration of the loop, at an index whose double is an [int]. *)
Lemma populate_body_Done s i :
  0 <= i < N -> heap s !! b = Some (filled (Z.to_nat i) cells) ->
  (v ← int_mul i 2; store (Ptr b) i v) s
  = Done tt
      (mkState (<[b := filled (S (Z.to_nat i)) cells]> (heap s))
         (next_block s) (stdout s)
         (history s
            ++ [(store_event (Ptr b) (Z.to_nat i),
                 <[b := filled (S (Z.to_nat i)) cells]> (heap s))])).
Proof.
  intros Hi Hb.
  rewrite (bind_Done _ _ _ _ _ (int_mul_Done i 2 _ ltac:(
    unfold MAX_N, INT_MIN, INT_MAX in *; lia))).
  erewrite store_Done; [| exact Hb | rewrite length_filled; lia ].
  replace (i * 2) with (Z.of_nat (Z.to_nat i) * 2) by lia.
  rewrite filled_step by lia. unfold store_event.
  by rewrite !Z2Nat.id by lia.
Qed.

Lemma populate_any_Done s :
  heap s !! b = Some cells ->
  populate N (Ptr b) s =
    Done tt
      (mkState (<[b := filled (Z.to_nat N) cells]> (heap s)) (next_block s)
         (stdout s)
         (history s
            ++ (store_entry b (heap s) cells <$> seq 0 (Z.to_nat N)))).
Proof.
  intros Hb. unfold populate.
  pose (I := fun (i : Z) (_ : unit) (s' : state) =>
    0 <= i <= N /\
    s' = mkState (<[b := filled (Z.to_nat i) cells]> (heap s))
           (next_block s) (stdout s)
           (history s
              ++ (store_entry b (heap s) cells <$> seq 0 (Z.to_nat i)))).
  destruct (for_int_inv I
              (fun i _ => v ← int_mul i 2; store (Ptr b) i v) 0 N)
    with (acc := tt) (s := s) as ([] & s' & Hrun & HI).
  - unfold INT_MIN. lia.
  - unfold MAX_N, INT_MAX in *. lia.
  - intros i [] s1 Hi [_ ->].
    rewrite populate_body_Done by (done || apply lookup_insert_eq).
    eexists tt, _. split; [done|]. split; [lia|].
    cbn [heap next_block stdout history]. rewrite insert_insert_eq.
    replace (Z.to_nat (i + 1)) with (S (Z.to_nat i)) by lia.
    by rewrite seq_S, fmap_app, app_assoc.
  - lia.
  - split; [lia|]. simpl. rewrite filled_0, insert_id by done.
    rewrite app_nil_r. by destruct s.
  - rewrite Hrun. by destruct HI as [_ ->].
Qed.
End PopulateAny.

(** X2 (the populate loop on any buffer).  On a live block of at least
    [N] cells, for any [0 <= N <= MAX_N], the loop of lines 12-14 returns
    normally; it sets cell [i] to [i * 2] for every [i < N] whatever the
    cell held, leaves the cells from index [N] on and every other block
    as they were, keeps the length of the block, writes nothing to the
    standard output, and stores to the indices [0 .. N - 1] once each, in
    ascending order. *)
Theorem populate_touches_only_its_cells (N : Z) (b : positive)
    (cells : list Z) (s : state) :
  0 <= N <= MAX_N ->
  heap s !! b = Some cells ->
  (Z.to_nat N <= length cells)%nat ->
  exists s' cells',
    populate N (Ptr b) s = Done tt s'
    /\ heap s' = <[b := cells']> (heap s)
    /\ length cells' = length cells
    /\ (forall i, 0 <= i < N -> cells' !! Z.to_nat i = Some (i * 2))
    /\ (forall j, (Z.to_nat N <= j)%nat -> cells' !! j = cells !! j)
    /\ stdout s' = stdout s /\ next_block s' = next_block s
    /\ trace s'
       = trace s ++ (store_event (Ptr b) <$> seq 0 (Z.to_nat N)).
Proof.
  intros HN Hb Hlen. eexists _, (filled (Z.to_nat N) cells).
  split; [by apply populate_any_Done|].
  split; [done|]. split; [by apply length_filled|].
  split; [|split; [|split; [done|split; [done|]]]].
  - intros i Hi. rewrite filled_lookup_lt by lia. f_equal. lia.
  - intros j Hj. by apply filled_lookup_ge.
  - unfold trace at 1. cbn [history]. by rewrite trace_app_entries.
Qed.

(** The loop on the first three cells of block 5 of [sample_state]. *)
Lemma populate_touches_only_its_cells_witness :
  exists s' cells',
    populate 3 (Ptr 5) sample_state = Done tt s'
    /\ heap s' = <[5%positive := cells']> (heap sample_state)
    /\ length cells' = 4%nat
    /\ (forall i, 0 <= i < 3 -> cells' !! Z.to_nat i = Some (i * 2))
    /\ (forall j, (3 <= j)%nat -> cells' !! j = [5; -7; 9; 100] !! j)
    /\ stdout s' = stdout sample_state
    /\ next_block s' = next_block sample_state
    /\ trace s'
       = [EvStore (Ptr 5) 0 0; EvStore (Ptr 5) 1 2; EvStore (Ptr 5) 2 4].
Proof.
  apply (populate_touches_only_its_cells 3 5 [5; -7; 9; 100] sample_state).
  - unfold MAX_N. lia.
  - reflexivity.
  - simpl. lia.
Defined.

Example populate_sample :
  (fun o => heap (final_state o) !! 5%positive)
    (populate 3 (Ptr 5) sample_state) = Some [0; 2; 4; 100].
Proof. vm_compute. reflexivity. Qed.

(** ** Buffer sizes beyond [MAX_N] *)


(** The loop rule for a loop whose body faults at iteration [j]. *)
Section LoopFault.
Context {A : Type}.
Variable I : Z -> A -> state -> Prop.
Variable Q : state -> Prop.
Variable body : Z -> A -> M A.
Variable f : fault.
Variables lo j hi : Z.
Hypothesis lo_int : INT_MIN <= lo.
Hypothesis hi_int : hi <= INT_MAX.
Hypothesis j_range : lo <= j < hi.
Hypothesis body_ok : forall i acc s,
  lo <= i < j -> I i acc s ->
  exists acc' s', body i acc s = Done acc' s' /\ I (i + 1) acc' s'.
Hypothesis body_fault : forall acc s,
  I j acc s -> exists s', body j acc s = Crash f s' /\ Q s'.


End LoopFault.





(** ** The whole program at any size *)

(** X4 (the program at any size).  With [SIZE] replaced by any
    [0 <= N <= MAX_N]: when the request is granted the run returns 0,
    prints the one line [Sum: N*(N-1)], and consists of exactly
    [2 * N + 3] events, in this order: the request, the stores to
    [0 .. N - 1], the loads from [0 .. N - 1], the print, the free; the
    heap is empty at the end.  When the request is refused the run
    returns 1 after the request alone. *)
Theorem program_at_any_size (e : env) (N : Z) :
  0 <= N <= MAX_N ->
  let o := main_with e N init_state in
  (malloc_succeeds e (N * sizeof_int) = true ->
     exit_code o = Some 0
     /\ output o = Some (sum_line (N * (N - 1)))
     /\ trace (final_state o)
        = [EvMalloc (N * sizeof_int) (Ptr 1)]
          ++ (store_event (Ptr 1) <$> seq 0 (Z.to_nat N))
          ++ (load_event (Ptr 1) <$> seq 0 (Z.to_nat N))
          ++ [EvPrint (sum_line (N * (N - 1))); EvFree (Ptr 1)]
     /\ Z.of_nat (length (trace (final_state o))) = 2 * N + 3
     /\ heap (final_state o) = ∅)
  /\ (malloc_succeeds e (N * sizeof_int) = false ->
      exit_code o = Some 1
      /\ output o = Some EmptyString
      /\ trace (final_state o) = [EvMalloc (N * sizeof_int) NULL]
      /\ heap (final_state o) = ∅).
Proof.
  intros HN o. subst o. change (main_with e N init_state) with (run e N).
  split; intros Hm.
  - rewrite (run_success e N HN Hm). cbn [exit_code output final_state].
    split; [done|]. split; [done|]. rewrite trace_success.
    split; [done|]. split; [|done].
    rewrite !length_app, !length_fmap, !length_seq. simpl length. lia.
  - rewrite run_failure by (by rewrite request_bytes).
    cbn [exit_code output final_state]. rewrite trace_failure by done.
    done.
Qed.

(** Size 3, granted by [env_ok] and refused by [env_fail]. *)
Lemma program_at_any_size_witness :
  (exit_code (main_with env_ok 3 init_state) = Some 0
   /\ output (main_with env_ok 3 init_state)
      = Some ("Sum: 6" ++ newline)%string
   /\ trace (final_state (main_with env_ok 3 init_state))
      = [EvMalloc 12 (Ptr 1);
         EvStore (Ptr 1) 0 0; EvStore (Ptr 1) 1 2; EvStore (Ptr 1) 2 4;
         EvLoad (Ptr 1) 0 0; EvLoad (Ptr 1) 1 2; EvLoad (Ptr 1) 2 4;
         EvPrint ("Sum: 6" ++ newline)%string; EvFree (Ptr 1)]
   /\ Z.of_nat (length (trace (final_state (main_with env_ok 3 init_state))))
      = 9
   /\ heap (final_state (main_with env_ok 3 init_state)) = ∅)
  /\ (exit_code (main_with env_fail 3 init_state) = Some 1
      /\ output (main_with env_fail 3 init_state) = Some EmptyString
      /\ trace (final_state (main_with env_fail 3 init_state))
         = [EvMalloc 12 NULL]
      /\ heap (final_state (main_with env_fail 3 init_state)) = ∅).
Proof.
  split.
  - apply (proj1 (program_at_any_size env_ok 3
                    ltac:(unfold MAX_N; lia))). reflexivity.
  - apply (proj2 (program_at_any_size env_fail 3
                    ltac:(unfold MAX_N; lia))). reflexivity.
Defined.

(** ** Negative sizes *)

Lemma request_bytes_negative N :
  INT_MIN <= N < 0 ->
  size_mul (size_of_int N) sizeof_int = SIZE_MAX + 1 + N * sizeof_int.
Proof.
  unfold INT_MIN, size_mul, size_of_int, sizeof_int, SIZE_MAX. intros H.
  replace (N mod (18446744073709551615 + 1))
    with (N + 18446744073709551616).
  - symmetry. apply (Z.mod_unique _ _ 3); lia.
  - apply (Z.mod_unique _ _ (-1)); lia.
Qed.

Lemma for_int_empty {A} lo hi (body : Z -> A -> M A) acc s :
  hi <= lo -> for_int lo hi body acc s = Done acc s.
Proof.
  intros H. unfold for_int. simpl.
  by assert ((lo <? hi) = false) as -> by (apply Z.ltb_ge; lia).
Qed.

(** X5 (negative sizes).  With [SIZE] replaced by a negative [int] [N],
    the conversion to [size_t] wraps and the program requests
    [2^64 + 4 * N] bytes.  If that request is granted, both loops exit at
    their first test: the run is the request, the print of [Sum: 0] and
    the free, and returns 0 without touching the block.  If it is
    refused, the run returns 1. *)
Theorem negative_size_never_iterates (e : env) (N : Z) :
  INT_MIN <= N < 0 ->
  let bytes := SIZE_MAX + 1 + N * sizeof_int in
  let o := main_with e N init_state in
  (malloc_succeeds e bytes = true ->
     exit_code o = Some 0
     /\ output o = Some ("Sum: 0" ++ newline)%string
     /\ trace (final_state o)
        = [EvMalloc bytes (Ptr 1); EvPrint ("Sum: 0" ++ newline)%string;
           EvFree (Ptr 1)]
     /\ heap (final_state o) = ∅)
  /\ (malloc_succeeds e bytes = false ->
      exit_code o = Some 1 /\ output o = Some EmptyString
      /\ trace (final_state o) = [EvMalloc bytes NULL]).
Proof.
  intros HN bytes o. subst o bytes.
  rewrite <- (request_bytes_negative N HN).
  set (bytes := size_mul (size_of_int N) sizeof_int).
  split; intros Hm.
  - assert (main_with e N init_state
            = Done 0
                (mkState ∅ 2%positive ("Sum: 0" ++ newline)%string
                   [(EvMalloc bytes (Ptr 1),
                     <[1%positive := fresh_cells e bytes]> ∅);
                    (EvPrint ("Sum: 0" ++ newline)%string,
                     <[1%positive := fresh_cells e bytes]> ∅);
                    (EvFree (Ptr 1), ∅)])) as ->; [|done].
    unfold main_with, allocate. fold bytes.
    erewrite bind_Done; [| unfold malloc; by rewrite Hm ].
    cbn [is_null].
    erewrite bind_Done; [| unfold populate; apply for_int_empty; lia ].
    erewrite bind_Done; [| unfold reduce; apply for_int_empty; lia ].
    erewrite bind_Done; [| unfold report, printf_lld; reflexivity ].
    erewrite bind_Done; cycle 1.
    { unfold release, free. cbn [heap init_state].
      rewrite lookup_insert_eq. reflexivity. }
    cbn [heap next_block stdout history init_state].
    by rewrite delete_insert_eq, delete_empty.
  - change (main_with e N init_state) with (run e N).
    by rewrite (run_failure e N Hm).
Qed.

(** Size -1: a request for [2^64 - 4] bytes. *)
Lemma negative_size_never_iterates_witness :
  (malloc_succeeds env_ok 18446744073709551612 = true
   /\ output (main_with env_ok (-1) init_state)
      = Some ("Sum: 0" ++ newline)%string
   /\ trace (final_state (main_with env_ok (-1) init_state))
      = [EvMalloc 18446744073709551612 (Ptr 1);
         EvPrint ("Sum: 0" ++ newline)%string; EvFree (Ptr 1)])
  /\ (malloc_succeeds env_fail 18446744073709551612 = false
      /\ exit_code (main_with env_fail (-1) init_state) = Some 1).
Proof.
  split; (split; [reflexivity|]).
  - destruct (proj1 (negative_size_never_iterates env_ok (-1)
                       ltac:(unfold INT_MIN; lia)) eq_refl)
      as (_ & Ho & Ht & _).
    exact (conj Ho Ht).
  - destruct (proj2 (negative_size_never_iterates env_fail (-1)
                       ltac:(unfold INT_MIN; lia)) eq_refl)
      as (Hc & _).
    exact Hc.
Defined.

(** ** Every load reads what the program stored *)

Lemma count_fmap_none (f : event -> bool) (g : nat -> event) l :
  (forall k, k ∈ l -> f (g k) = false) -> count f (g <$> l) = 0%nat.
Proof.
  intros H. unfold count. induction l as [|k l IH]; [done|].
  rewrite fmap_cons. cbn [List.filter].
  rewrite H by apply list_elem_of_here.
  apply IH. intros k' Hk'. apply H. by apply list_elem_of_further.
Qed.

Lemma seq_split n k :
  (k < n)%nat -> seq 0 n = seq 0 k ++ [k] ++ seq (S k) (n - S k).
Proof.
  intros Hk. replace n with (k + (1 + (n - S k)))%nat at 1 by lia.
  rewrite !seq_app. simpl. by rewrite Nat.add_1_r.
Qed.

(** X6 (no read of indeterminate memory).  With [SIZE] replaced by any
    [0 <= N <= MAX_N] and the request granted, every load of the run is
    preceded by a store of the program to the same address with the value
    that the load returns, and no store to that index lies between the
    two: the content of fresh memory is never read. *)
Theorem loads_read_program_stores (e : env) (N : Z) (p : ptr) (i v : Z) :
  0 <= N <= MAX_N ->
  malloc_succeeds e (N * sizeof_int) = true ->
  EvLoad p i v ∈ trace (final_state (main_with e N init_state)) ->
  exists t1 t2 t3,
    trace (final_state (main_with e N init_state))
    = t1 ++ [EvStore p i v] ++ t2 ++ [EvLoad p i v] ++ t3
    /\ count (writes_index i) t2 = 0%nat.
Proof.
  intros HN Hm. change (main_with e N init_state) with (run e N).
  rewrite (run_success e N HN Hm). cbn [final_state].
  rewrite trace_success. intros Hin.
  assert (exists k, (k < Z.to_nat N)%nat /\ EvLoad p i v = load_event (Ptr 1) k)
    as (k & Hk & Hev).
  { rewrite !elem_of_app in Hin.
    destruct Hin as [Hin|[Hin|[Hin|Hin]]].
    - apply list_elem_of_singleton in Hin. discriminate.
    - apply list_elem_of_fmap in Hin. destruct Hin as (k & Hk & _).
      discriminate.
    - apply list_elem_of_fmap in Hin. destruct Hin as (k & Hk & Hs).
      apply elem_of_seq in Hs. exists k. split; [lia|done].
    - rewrite elem_of_cons, list_elem_of_singleton in Hin.
      destruct Hin; discriminate. }
  unfold load_event in Hev. injection Hev as -> -> ->.
  exists ([EvMalloc (N * sizeof_int) (Ptr 1)]
          ++ (store_event (Ptr 1) <$> seq 0 k)),
    ((store_event (Ptr 1) <$> seq (S k) (Z.to_nat N - S k))
     ++ (load_event (Ptr 1) <$> seq 0 k)),
    ((load_event (Ptr 1) <$> seq (S k) (Z.to_nat N - S k))
     ++ [EvPrint (sum_line (N * (N - 1))); EvFree (Ptr 1)]).
  split.
  - rewrite (seq_split (Z.to_nat N) k Hk), !fmap_app, <- !app_assoc. done.
  - rewrite count_app, (count_fmap_false _ (load_event _)) by done.
    rewrite count_fmap_none; [done|].
    intros k' Hk'%elem_of_seq. cbn [store_event writes_index].
    apply Z.eqb_neq. lia.
Qed.

(** The load from index 1 in the run of size 3. *)
Lemma loads_read_program_stores_witness :
  exists t1 t2 t3,
    trace (final_state (main_with env_ok 3 init_state))
    = t1 ++ [EvStore (Ptr 1) 1 2] ++ t2 ++ [EvLoad (Ptr 1) 1 2] ++ t3
    /\ count (writes_index 1) t2 = 0%nat.
Proof.
  apply (loads_read_program_stores env_ok 3 (Ptr 1) 1 2).
  - unfold MAX_N. lia.
  - reflexivity.
  - vm_compute. do 5 apply list_elem_of_further. apply list_elem_of_here.
Defined.

(** ** The printed numeral *)

Lemma lld_reads_back z :
  Z.of_int <$> NilZero.int_of_string (lld z) = Some z.
Proof.
  unfold lld. rewrite NilZero.isi.
  - simpl. f_equal. apply DecimalZ.of_to.
  - destruct z; simpl; try discriminate.
    intros [= H]. by apply DecimalPos.Unsigned.to_uint_nonnil in H.
  - destruct z; simpl; try discriminate.
    intros [= H]. by apply DecimalPos.Unsigned.to_uint_nonnil in H.
Qed.

Lemma lld_nonneg_no_sign z rest :
  0 <= z -> lld z <> String "-"%char rest.
Proof.
  intros Hz. unfold lld. destruct z as [|q|q]; [done| |lia].
  simpl. pose proof (DecimalPos.Unsigned.to_uint_nonnil q) as Hq.
  destruct (Pos.to_uint q); [done|..]; discriminate.
Qed.

(** X7 (the printed numeral).  With [SIZE] replaced by any
    [0 <= N <= MAX_N] and the request granted, the output is [Sum: ],
    a numeral and a line terminator, where the numeral reads back, as a
    decimal integer, to the accumulator [N * (N - 1)], and does not start
    with a minus sign. *)
Theorem printed_sum_reads_back (e : env) (N : Z) :
  0 <= N <= MAX_N ->
  malloc_succeeds e (N * sizeof_int) = true ->
  exists numeral,
    output (main_with e N init_state)
    = Some ("Sum: " ++ numeral ++ newline)%string
    /\ Z.of_int <$> NilZero.int_of_string numeral = Some (N * (N - 1))
    /\ forall rest, numeral <> String "-"%char rest.
Proof.
  intros HN Hm. exists (lld (N * (N - 1))).
  change (main_with e N init_state) with (run e N).
  split; [exact (output_success e N HN Hm)|].
  split; [apply lld_reads_back|].
  intros rest. apply lld_nonneg_no_sign.
  destruct (prefix_sum_range N HN N ltac:(lia)) as [Hr _]. lia.
Qed.

(** Size 3: the numeral is [6]. *)
Lemma printed_sum_reads_back_witness :
  exists numeral,
    output (main_with env_ok 3 init_state)
    = Some ("Sum: " ++ numeral ++ newline)%string
    /\ Z.of_int <$> NilZero.int_of_string numeral = Some 6
    /\ forall rest, numeral <> String "-"%char rest.
Proof.
  apply (printed_sum_reads_back env_ok 3).
  - unfold MAX_N. lia.
  - reflexivity.
Defined.

(** ** The program started in any state *)

Section AnyStart.
Variable e : env.
Variable N : Z.
Variable s : state.
Hypothesis N_range : 0 <= N <= MAX_N.
Hypothesis fresh : heap s !! next_block s = None.

Let b := next_block s.
Let cells := fresh_cells e (N * sizeof_int).
Let h1 : gmap positive (list Z) := <[b := cells]> (heap s).
Let h2 : gmap positive (list Z) := <[b := evens (Z.to_nat N)]> (heap s).

(** The history entries that a run with a granted request appends. *)
Lemma main_from_granted :
  malloc_succeeds e (N * sizeof_int) = true ->
  main_with e N s
  = Done 0
      (mkState (heap s) (Pos.succ b)
         (stdout s ++ sum_line (N * (N - 1)))%string
         (history s
          ++ [(EvMalloc (N * sizeof_int) (Ptr b), h1)]
          ++ (store_entry b h1 cells <$> seq 0 (Z.to_nat N))
          ++ (load_entry b h2 <$> seq 0 (Z.to_nat N))
          ++ [(EvPrint (sum_line (N * (N - 1))), h2);
              (EvFree (Ptr b), heap s)])).
Proof.
  intros Hm. unfold main_with, allocate. rewrite request_bytes by done.
  erewrite bind_Done; [| unfold malloc; by rewrite Hm ].
  cbn [is_null]. fold b cells h1.
  erewrite bind_Done; cycle 1.
  { apply populate_Done with (cells := cells);
      [done | apply lookup_insert_eq | apply fresh_cells_length; lia ]. }
  cbn [heap next_block stdout history].
  unfold h1 at 1. rewrite insert_insert_eq. fold h2.
  erewrite bind_Done; cycle 1.
  { apply reduce_Done with (m := Z.to_nat N);
      [done | apply lookup_insert_eq | done ]. }
  cbn [heap next_block stdout history].
  erewrite bind_Done; [| unfold report, printf_lld; reflexivity ].
  cbn [heap next_block stdout history]. fold (sum_line (N * (N - 1))).
  erewrite bind_Done; cycle 1.
  { unfold release, free. cbn [heap]. unfold h2 at 1.
    rewrite lookup_insert_eq. reflexivity. }
  cbn [heap next_block stdout history]. unfold ret. f_equal. f_equal.
  - unfold h2. by rewrite delete_insert_eq, delete_id.
  - rewrite <- !app_assoc. do 5 f_equal.
    unfold h2. by rewrite delete_insert_eq, delete_id.
Qed.

Lemma main_from_refused :
  malloc_succeeds e (N * sizeof_int) = false ->
  main_with e N s
  = Done 1
      (mkState (heap s) (next_block s) (stdout s)
         (history s ++ [(EvMalloc (N * sizeof_int) NULL, heap s)])).
Proof.
  intros Hm. unfold main_with, allocate. rewrite request_bytes by done.
  erewrite bind_Done; [| unfold malloc; by rewrite Hm ]. done.
Qed.

End AnyStart.

(** X8 (the footprint of the program).  Started in any state whose
    allocator hands out a fresh block, with [SIZE] replaced by any
    [0 <= N <= MAX_N]: when the request is granted, [main] returns 0,
    appends its one line to the standard output and leaves the heap
    exactly as it found it; the events it adds are the request, the [N]
    stores, the [N] loads, the print and the free, all on the new block,
    and in the heap after each of them every other block is unchanged.
    When the request is refused it returns 1 and changes neither the heap
    nor the standard output. *)
Theorem main_restores_the_heap (e : env) (N : Z) (s : state) :
  0 <= N <= MAX_N ->
  heap s !! next_block s = None ->
  let arr := Ptr (next_block s) in
  (malloc_succeeds e (N * sizeof_int) = true ->
     exists s',
       main_with e N s = Done 0 s'
       /\ heap s' = heap s
       /\ stdout s' = (stdout s ++ sum_line (N * (N - 1)))%string
       /\ trace s'
          = trace s
            ++ [EvMalloc (N * sizeof_int) arr]
            ++ (store_event arr <$> seq 0 (Z.to_nat N))
            ++ (load_event arr <$> seq 0 (Z.to_nat N))
            ++ [EvPrint (sum_line (N * (N - 1))); EvFree arr]
       /\ Forall (fun entry =>
                    forall b', b' <> next_block s ->
                               entry.2 !! b' = heap s !! b')
            (drop (length (history s)) (history s')))
  /\ (malloc_succeeds e (N * sizeof_int) = false ->
      exists s',
        main_with e N s = Done 1 s'
        /\ heap s' = heap s /\ stdout s' = stdout s
        /\ trace s' = trace s ++ [EvMalloc (N * sizeof_int) NULL]).
Proof.
  intros HN Hfresh arr. subst arr. split; intros Hm.
  - eexists. split; [by apply main_from_granted|].
    split; [done|]. split; [done|]. cbn [history]. split.
    + unfold trace at 1. cbn [history].
      rewrite !fmap_app, <- !list_fmap_compose. done.
    + rewrite drop_app_length. repeat apply Forall_app_2.
      * apply Forall_singleton. intros b' Hb'. cbn [snd].
        by rewrite lookup_insert_ne.
      * apply Forall_fmap, Forall_forall. intros k _ b' Hb'.
        cbn [compose snd store_entry]. by rewrite !lookup_insert_ne.
      * apply Forall_fmap, Forall_forall. intros k _ b' Hb'.
        cbn [compose snd load_entry]. by rewrite lookup_insert_ne.
      * apply Forall_cons_2; [|by apply Forall_singleton].
        intros b' Hb'. cbn [snd]. by rewrite lookup_insert_ne.
  - eexists. split; [by apply main_from_refused|].
    split; [done|]. split; [done|].
    unfold trace at 1. cbn [history]. by rewrite fmap_app.
Qed.

(** Size 3, started in [sample_state], whose blocks 2 and 5 are live. *)
Lemma main_restores_the_heap_witness :
  exists s',
    main_with env_ok 3 sample_state = Done 0 s'
    /\ heap s' = heap sample_state
    /\ stdout s' = ("log: Sum: 6" ++ newline)%string
    /\ trace s'
       = [EvMalloc 12 (Ptr 6);
          EvStore (Ptr 6) 0 0; EvStore (Ptr 6) 1 2; EvStore (Ptr 6) 2 4;
          EvLoad (Ptr 6) 0 0; EvLoad (Ptr 6) 1 2; EvLoad (Ptr 6) 2 4;
          EvPrint ("Sum: 6" ++ newline)%string; EvFree (Ptr 6)]
    /\ Forall (fun entry =>
                 forall b', b' <> 6%positive ->
                            entry.2 !! b' = heap sample_state !! b')
         (drop 0 (history s')).
Proof.
  apply (proj1 (main_restores_the_heap env_ok 3 sample_state
                  ltac:(unfold MAX_N; lia) eq_refl)).
  reflexivity.
Defined.
